(** * Exscript.protocols.Transport

    A shallow embedding of [Transport], the base class of all protocol
    adapters: the prompt getters and setters, driver resolution on every
    received chunk, the wait primitives and their retry loops, and the
    login state machine (protocol authentication, application level
    authentication and authorization, one-time passwords).

    A connection object is a record; a method is a function in a monad
    that threads the object and may raise.  As in Python, what a method
    did to the object before it raised stays done. *)

From Stdlib Require Import String Ascii List ZArith Bool Arith Lia DecimalString.
Import ListNotations.
Local Open Scope list_scope.
Local Open Scope string_scope.

Set Implicit Arguments.

(** ** Python strings *)

Module Str.

Definition CR : string := String "013" EmptyString.
Definition LF : string := String "010" EmptyString.
Definition NUL : ascii := "000"%char.
Definition squote : ascii := "039"%char.
Definition dquote : ascii := "034"%char.
Definition backslash : ascii := "092"%char.

(** [s[:n]] and [s[n:]] *)
Fixpoint take (n : nat) (s : string) : string :=
  match n, s with
  | S k, String c r => String c (take k r)
  | _, _ => EmptyString
  end.

Fixpoint drop (n : nat) (s : string) : string :=
  match n, s with
  | S k, String _ r => drop k r
  | _, _ => s
  end.

(** [data.replace(chr(13) + chr(0), '')] *)
Fixpoint remove_cr_nul (s : string) : string :=
  match s with
  | EmptyString => EmptyString
  | String c r =>
      match r with
      | String d r' =>
          if (Ascii.eqb c "013" && Ascii.eqb d NUL)%bool then remove_cr_nul r'
          else String c (remove_cr_nul r)
      | EmptyString => String c EmptyString
      end
  end.

(** [data.replace('\r', '')] *)
Fixpoint remove_cr (s : string) : string :=
  match s with
  | EmptyString => EmptyString
  | String c r =>
      if Ascii.eqb c "013" then remove_cr r else String c (remove_cr r)
  end.

(** [s.split('\n')]: never empty, the pieces between the line feeds. *)
Fixpoint split_lines (s : string) : list string :=
  match s with
  | EmptyString => [EmptyString]
  | String c r =>
      if Ascii.eqb c "010" then EmptyString :: split_lines r
      else match split_lines r with
           | h :: t => String c h :: t
           | [] => [String c EmptyString]
           end
  end.

Fixpoint contains_char (c : ascii) (s : string) : bool :=
  match s with
  | EmptyString => false
  | String d r => (Ascii.eqb c d || contains_char c r)%bool
  end.

Definition hex_digit (n : nat) : ascii :=
  nth n (list_ascii_of_string "0123456789abcdef") "0"%char.

(** One character of [repr(s)] for a Python 2 [str], inside the chosen
    quote. *)
Definition repr_char (quote c : ascii) : string :=
  if (Ascii.eqb c quote || Ascii.eqb c backslash)%bool
  then String backslash (String c EmptyString)
  else if Ascii.eqb c "009" then String backslash "t"
  else if Ascii.eqb c "010" then String backslash "n"
  else if Ascii.eqb c "013" then String backslash "r"
  else let n := nat_of_ascii c in
       if ((n <? 32)%nat || (127 <=? n)%nat)%bool
       then String backslash
              (String "x" (String (hex_digit (n / 16))
                             (String (hex_digit (n mod 16)) EmptyString)))
       else String c EmptyString.

Fixpoint repr_body (quote : ascii) (s : string) : string :=
  match s with
  | EmptyString => EmptyString
  | String c r => repr_char quote c ++ repr_body quote r
  end.

(** [repr(s)]: single quotes, unless the text has a single quote and no
    double quote. *)
Definition repr (s : string) : string :=
  let quote :=
    if (contains_char squote s && negb (contains_char dquote s))%bool
    then dquote else squote in
  String quote (repr_body quote s ++ String quote EmptyString).

(** ["%s" % n] for an integer. *)
Definition of_Z (z : Z) : string := NilZero.string_of_int (Z.to_int z).
Definition of_nat (n : nat) : string := NilZero.string_of_uint (Nat.to_uint n).

(** [int(s)] on a decimal numeral with an optional sign. *)
Definition to_Z (s : string) : option Z :=
  option_map Z.of_int (NilZero.int_of_string s).

End Str.

Import Str.

(** ** Exceptions and results *)

Inductive exn : Type :=
| TimeoutException (msg : string)
| DriverReplacedException
| ExpectCancelledException
| EOFError
| LoginFailure (msg : string)
| InvalidCommandException (msg : string)
| TypeError (msg : string)
| KeyError (key : string)
| IndexError (msg : string)
| ValueError (msg : string)
| AttributeError (msg : string).

(** What a call comes to: it returns, it raises, or the number of loop
    iterations granted to it is used up before it did either. *)
Inductive outcome (A : Type) : Type :=
| Return (a : A)
| Raise (e : exn)
| OutOfFuel.

Arguments Return {A} a.
Arguments Raise {A} e.
Arguments OutOfFuel {A}.

Definition is_driver_replaced {A} (r : outcome A) : bool :=
  match r with Raise DriverReplacedException => true | _ => false end.

Definition is_invalid_command {A} (r : outcome A) : bool :=
  match r with Raise (InvalidCommandException _) => true | _ => false end.

Definition is_out_of_fuel {A} (r : outcome A) : bool :=
  match r with OutOfFuel => true | _ => false end.

Definition returns {A} (r : outcome A) : bool :=
  match r with Return _ => true | _ => false end.

(** ** Patterns, drivers, accounts *)

(** A compiled regular expression, known by its pattern text. *)
Record regex : Type := re_compile { pattern : string }.

(** A match object: [m.start()], [m.end()] and the groups from 1 on. *)
Record MatchObject : Type := mkMatch {
  m_start : nat;
  m_end : nat;
  m_groups : list string
}.

(** [m.group(n)] for [n >= 1]; no such group is an [IndexError]. *)
Definition group (m : MatchObject) (n : nat) : option string :=
  match n with
  | O => None
  | S k => nth_error (m_groups m) k
  end.

(** [_skey_re = re.compile(r'(?:s\/key|otp-md4) (\d+) (\S+)')] *)
Definition _skey_re : regex :=
  re_compile "(?:s\/key|otp-md4) (\d+) (\S+)".

(** The part of a driver that is data: its name and its five prompt
    lists.  Its procedures are in [Procedures] below. *)
Record Driver : Type := mkDriver {
  name : string;
  user_re : list regex;
  password_re : list regex;
  prompt_re : list regex;
  error_re : list regex;
  login_error_re : list regex
}.

Definition regex_eq_dec (a b : regex) : {a = b} + {a <> b}.
Proof. decide equality; apply string_dec. Defined.

Definition Driver_eq_dec (a b : Driver) : {a = b} + {a <> b}.
Proof.
  decide equality; try apply (list_eq_dec regex_eq_dec); apply string_dec.
Defined.

(** [old_driver != new_driver]: drivers are told apart by what they hold. *)
Definition driver_neq (a b : Driver) : bool :=
  if Driver_eq_dec a b then false else true.

Definition PrivateKey : Type := string.

(** [Exscript.Account], as far as this class reads it. *)
Record Account : Type := mkAccount {
  get_name : string;
  get_password : string;
  get_authorization_password : option string;
  get_key : option PrivateKey
}.

(** The calls a connection makes to the hooks its subclasses fill in and
    to its listeners, in the order made. *)
Inductive Call : Type :=
| ProtocolAuthenticate (user password : string)
| ProtocolAuthenticateByKey (user : string) (key : PrivateKey)
| Send (data : string)
| OtpRequested (seq : Z) (seed : string)
| DataReceived (data : string)
| AutoAuthorize (driver : string) (account : Account) (flush : bool).

(** The sections of the prompt race in [_app_authenticate]. *)
Inductive section : Type :=
| login_error_section
| username_section
| skey_section
| password_section
| cli_section.

(** A value a method hands back where the caller may look at it. *)
Inductive value : Type :=
| VNone
| VStr (s : string)
| VMatch (index : nat) (m : MatchObject).

(** An argument that may be one pattern or a list of them. *)
Inductive prompt_arg : Type :=
| One (r : regex)
| Many (l : list regex).

(** Modelled from the spec: [to_regexs] of [Exscript.util.cast] is not
    among the source files.  Every pattern category is an ordered set of
    patterns, so one pattern becomes a list of one and a list is kept as
    it is, in order. *)
Definition to_regexs (p : prompt_arg) : list regex :=
  match p with
  | One r => [r]
  | Many l => l
  end.

(** The argument of [set_driver]. *)
Inductive driver_arg : Type :=
| DriverNone
| DriverName (n : string)
| DriverObject (d : Driver)
| DriverOther.

(** ** Collaborators

    The regular expression library, the OS guesser, the driver table and
    the one-time password function are used through their interfaces
    only. *)
Class Collaborators : Type := {
  (** [regex.search(text)] and [regex.match(text)] *)
  re_search : regex -> string -> option MatchObject;
  re_match : regex -> string -> option MatchObject;
  (** [OsGuesser]: its state, [data_received], [response_received], [get] *)
  Guesser : Type;
  guesser_new : Guesser;
  guesser_data_received : Guesser -> string -> Guesser;
  guesser_response_received : Guesser -> Guesser;
  guesser_get : Guesser -> string -> string;
  (** [driver_map], a dictionary from names to drivers *)
  driver_map : string -> option Driver;
  (** [Exscript.util.crypt.otp(password, seed, seq)] *)
  otp : string -> string -> Z -> string
}.

Section Model.

Context {C : Collaborators}.

(** ** The connection object

    The attributes [__init__] sets, followed by what the spec's match
    engine and raw transport hold for a connection: the receive buffer,
    the cancellation flag, the chunks the device is still to deliver (in
    order), whether the stream is closed once they are delivered (else it
    stays silent until the timeout), and the calls made so far.
    [data_received_event] says, for a chunk, whether a listener of the
    event answers it by calling [cancel_expect()]. *)
Record Transport : Type := mkTransport {
  os_guesser : Guesser;
  auto_driver : Driver;
  authenticated : bool;
  app_authenticated : bool;
  app_authorized : bool;
  manual_user_re : option (list regex);
  manual_password_re : option (list regex);
  manual_prompt_re : option (list regex);
  manual_error_re : option (list regex);
  manual_login_error_re : option (list regex);
  driver_replaced : bool;
  manual_driver : option Driver;
  host : option string;
  last_account : option Account;
  stdout : list string;
  stderr : list string;
  debug : Z;
  timeout : Z;
  log : option (list string);
  response : option string;
  data_received_event : string -> bool;
  buffer : string;
  cancel_requested : bool;
  incoming : list string;
  closed : bool;
  trace : list Call
}.

Definition set_os_guesser (v : Guesser) (s : Transport) : Transport :=
  mkTransport v (auto_driver s) (authenticated s) (app_authenticated s)
    (app_authorized s) (manual_user_re s) (manual_password_re s)
    (manual_prompt_re s) (manual_error_re s) (manual_login_error_re s)
    (driver_replaced s) (manual_driver s) (host s) (last_account s) (stdout s)
    (stderr s) (debug s) (timeout s) (log s) (response s)
    (data_received_event s) (buffer s) (cancel_requested s) (incoming s)
    (closed s) (trace s).

Definition set_auto_driver (v : Driver) (s : Transport) : Transport :=
  mkTransport (os_guesser s) v (authenticated s) (app_authenticated s)
    (app_authorized s) (manual_user_re s) (manual_password_re s)
    (manual_prompt_re s) (manual_error_re s) (manual_login_error_re s)
    (driver_replaced s) (manual_driver s) (host s) (last_account s) (stdout s)
    (stderr s) (debug s) (timeout s) (log s) (response s)
    (data_received_event s) (buffer s) (cancel_requested s) (incoming s)
    (closed s) (trace s).

Definition set_authenticated (v : bool) (s : Transport) : Transport :=
  mkTransport (os_guesser s) (auto_driver s) v (app_authenticated s)
    (app_authorized s) (manual_user_re s) (manual_password_re s)
    (manual_prompt_re s) (manual_error_re s) (manual_login_error_re s)
    (driver_replaced s) (manual_driver s) (host s) (last_account s) (stdout s)
    (stderr s) (debug s) (timeout s) (log s) (response s)
    (data_received_event s) (buffer s) (cancel_requested s) (incoming s)
    (closed s) (trace s).

Definition set_app_authenticated (v : bool) (s : Transport) : Transport :=
  mkTransport (os_guesser s) (auto_driver s) (authenticated s) v
    (app_authorized s) (manual_user_re s) (manual_password_re s)
    (manual_prompt_re s) (manual_error_re s) (manual_login_error_re s)
    (driver_replaced s) (manual_driver s) (host s) (last_account s) (stdout s)
    (stderr s) (debug s) (timeout s) (log s) (response s)
    (data_received_event s) (buffer s) (cancel_requested s) (incoming s)
    (closed s) (trace s).

Definition set_app_authorized (v : bool) (s : Transport) : Transport :=
  mkTransport (os_guesser s) (auto_driver s) (authenticated s)
    (app_authenticated s) v (manual_user_re s) (manual_password_re s)
    (manual_prompt_re s) (manual_error_re s) (manual_login_error_re s)
    (driver_replaced s) (manual_driver s) (host s) (last_account s) (stdout s)
    (stderr s) (debug s) (timeout s) (log s) (response s)
    (data_received_event s) (buffer s) (cancel_requested s) (incoming s)
    (closed s) (trace s).

Definition set_manual_user_re (v : option (list regex)) (s : Transport) : Transport :=
  mkTransport (os_guesser s) (auto_driver s) (authenticated s)
    (app_authenticated s) (app_authorized s) v (manual_password_re s)
    (manual_prompt_re s) (manual_error_re s) (manual_login_error_re s)
    (driver_replaced s) (manual_driver s) (host s) (last_account s) (stdout s)
    (stderr s) (debug s) (timeout s) (log s) (response s)
    (data_received_event s) (buffer s) (cancel_requested s) (incoming s)
    (closed s) (trace s).

Definition set_manual_password_re (v : option (list regex)) (s : Transport) : Transport :=
  mkTransport (os_guesser s) (auto_driver s) (authenticated s)
    (app_authenticated s) (app_authorized s) (manual_user_re s) v
    (manual_prompt_re s) (manual_error_re s) (manual_login_error_re s)
    (driver_replaced s) (manual_driver s) (host s) (last_account s) (stdout s)
    (stderr s) (debug s) (timeout s) (log s) (response s)
    (data_received_event s) (buffer s) (cancel_requested s) (incoming s)
    (closed s) (trace s).

Definition set_manual_prompt_re (v : option (list regex)) (s : Transport) : Transport :=
  mkTransport (os_guesser s) (auto_driver s) (authenticated s)
    (app_authenticated s) (app_authorized s) (manual_user_re s)
    (manual_password_re s) v (manual_error_re s) (manual_login_error_re s)
    (driver_replaced s) (manual_driver s) (host s) (last_account s) (stdout s)
    (stderr s) (debug s) (timeout s) (log s) (response s)
    (data_received_event s) (buffer s) (cancel_requested s) (incoming s)
    (closed s) (trace s).

Definition set_manual_error_re (v : option (list regex)) (s : Transport) : Transport :=
  mkTransport (os_guesser s) (auto_driver s) (authenticated s)
    (app_authenticated s) (app_authorized s) (manual_user_re s)
    (manual_password_re s) (manual_prompt_re s) v (manual_login_error_re s)
    (driver_replaced s) (manual_driver s) (host s) (last_account s) (stdout s)
    (stderr s) (debug s) (timeout s) (log s) (response s)
    (data_received_event s) (buffer s) (cancel_requested s) (incoming s)
    (closed s) (trace s).

Definition set_manual_login_error_re (v : option (list regex)) (s : Transport) : Transport :=
  mkTransport (os_guesser s) (auto_driver s) (authenticated s)
    (app_authenticated s) (app_authorized s) (manual_user_re s)
    (manual_password_re s) (manual_prompt_re s) (manual_error_re s) v
    (driver_replaced s) (manual_driver s) (host s) (last_account s) (stdout s)
    (stderr s) (debug s) (timeout s) (log s) (response s)
    (data_received_event s) (buffer s) (cancel_requested s) (incoming s)
    (closed s) (trace s).

Definition set_driver_replaced (v : bool) (s : Transport) : Transport :=
  mkTransport (os_guesser s) (auto_driver s) (authenticated s)
    (app_authenticated s) (app_authorized s) (manual_user_re s)
    (manual_password_re s) (manual_prompt_re s) (manual_error_re s)
    (manual_login_error_re s) v (manual_driver s) (host s) (last_account s)
    (stdout s) (stderr s) (debug s) (timeout s) (log s) (response s)
    (data_received_event s) (buffer s) (cancel_requested s) (incoming s)
    (closed s) (trace s).

Definition set_manual_driver (v : option Driver) (s : Transport) : Transport :=
  mkTransport (os_guesser s) (auto_driver s) (authenticated s)
    (app_authenticated s) (app_authorized s) (manual_user_re s)
    (manual_password_re s) (manual_prompt_re s) (manual_error_re s)
    (manual_login_error_re s) (driver_replaced s) v (host s) (last_account s)
    (stdout s) (stderr s) (debug s) (timeout s) (log s) (response s)
    (data_received_event s) (buffer s) (cancel_requested s) (incoming s)
    (closed s) (trace s).

Definition set_last_account (v : option Account) (s : Transport) : Transport :=
  mkTransport (os_guesser s) (auto_driver s) (authenticated s)
    (app_authenticated s) (app_authorized s) (manual_user_re s)
    (manual_password_re s) (manual_prompt_re s) (manual_error_re s)
    (manual_login_error_re s) (driver_replaced s) (manual_driver s) (host s) v
    (stdout s) (stderr s) (debug s) (timeout s) (log s) (response s)
    (data_received_event s) (buffer s) (cancel_requested s) (incoming s)
    (closed s) (trace s).

Definition set_stdout (v : list string) (s : Transport) : Transport :=
  mkTransport (os_guesser s) (auto_driver s) (authenticated s)
    (app_authenticated s) (app_authorized s) (manual_user_re s)
    (manual_password_re s) (manual_prompt_re s) (manual_error_re s)
    (manual_login_error_re s) (driver_replaced s) (manual_driver s) (host s)
    (last_account s) v (stderr s) (debug s) (timeout s) (log s) (response s)
    (data_received_event s) (buffer s) (cancel_requested s) (incoming s)
    (closed s) (trace s).

Definition set_stderr (v : list string) (s : Transport) : Transport :=
  mkTransport (os_guesser s) (auto_driver s) (authenticated s)
    (app_authenticated s) (app_authorized s) (manual_user_re s)
    (manual_password_re s) (manual_prompt_re s) (manual_error_re s)
    (manual_login_error_re s) (driver_replaced s) (manual_driver s) (host s)
    (last_account s) (stdout s) v (debug s) (timeout s) (log s) (response s)
    (data_received_event s) (buffer s) (cancel_requested s) (incoming s)
    (closed s) (trace s).

Definition set_log (v : option (list string)) (s : Transport) : Transport :=
  mkTransport (os_guesser s) (auto_driver s) (authenticated s)
    (app_authenticated s) (app_authorized s) (manual_user_re s)
    (manual_password_re s) (manual_prompt_re s) (manual_error_re s)
    (manual_login_error_re s) (driver_replaced s) (manual_driver s) (host s)
    (last_account s) (stdout s) (stderr s) (debug s) (timeout s) v
    (response s) (data_received_event s) (buffer s) (cancel_requested s)
    (incoming s) (closed s) (trace s).

Definition set_response (v : option string) (s : Transport) : Transport :=
  mkTransport (os_guesser s) (auto_driver s) (authenticated s)
    (app_authenticated s) (app_authorized s) (manual_user_re s)
    (manual_password_re s) (manual_prompt_re s) (manual_error_re s)
    (manual_login_error_re s) (driver_replaced s) (manual_driver s) (host s)
    (last_account s) (stdout s) (stderr s) (debug s) (timeout s) (log s) v
    (data_received_event s) (buffer s) (cancel_requested s) (incoming s)
    (closed s) (trace s).

Definition set_buffer (v : string) (s : Transport) : Transport :=
  mkTransport (os_guesser s) (auto_driver s) (authenticated s)
    (app_authenticated s) (app_authorized s) (manual_user_re s)
    (manual_password_re s) (manual_prompt_re s) (manual_error_re s)
    (manual_login_error_re s) (driver_replaced s) (manual_driver s) (host s)
    (last_account s) (stdout s) (stderr s) (debug s) (timeout s) (log s)
    (response s) (data_received_event s) v (cancel_requested s) (incoming s)
    (closed s) (trace s).

Definition set_cancel_requested (v : bool) (s : Transport) : Transport :=
  mkTransport (os_guesser s) (auto_driver s) (authenticated s)
    (app_authenticated s) (app_authorized s) (manual_user_re s)
    (manual_password_re s) (manual_prompt_re s) (manual_error_re s)
    (manual_login_error_re s) (driver_replaced s) (manual_driver s) (host s)
    (last_account s) (stdout s) (stderr s) (debug s) (timeout s) (log s)
    (response s) (data_received_event s) (buffer s) v (incoming s) (closed s)
    (trace s).

Definition set_incoming (v : list string) (s : Transport) : Transport :=
  mkTransport (os_guesser s) (auto_driver s) (authenticated s)
    (app_authenticated s) (app_authorized s) (manual_user_re s)
    (manual_password_re s) (manual_prompt_re s) (manual_error_re s)
    (manual_login_error_re s) (driver_replaced s) (manual_driver s) (host s)
    (last_account s) (stdout s) (stderr s) (debug s) (timeout s) (log s)
    (response s) (data_received_event s) (buffer s) (cancel_requested s) v
    (closed s) (trace s).

Definition set_trace (v : list Call) (s : Transport) : Transport :=
  mkTransport (os_guesser s) (auto_driver s) (authenticated s)
    (app_authenticated s) (app_authorized s) (manual_user_re s)
    (manual_password_re s) (manual_prompt_re s) (manual_error_re s)
    (manual_login_error_re s) (driver_replaced s) (manual_driver s) (host s)
    (last_account s) (stdout s) (stderr s) (debug s) (timeout s) (log s)
    (response s) (data_received_event s) (buffer s) (cancel_requested s)
    (incoming s) (closed s) v.

(** The keyword arguments of the constructor that this class keeps. *)
Record kwargs : Type := mkKwargs {
  kw_driver : option Driver;
  kw_host : option string;
  kw_account : option Account;
  kw_debug : option Z;
  kw_timeout : option Z;
  kw_logfile : option string
}.

(** [__init__] with its keyword arguments, for a connection whose
    listener is [listener] and whose device will deliver [chunks] and
    then close or not.  The driver for the first guess is looked up in
    [driver_map]. *)
Definition __init__ (kw : kwargs) (listener : string -> bool)
  (chunks : list string) (closes : bool) : outcome Transport :=
  let os := guesser_get guesser_new "os" in
  match driver_map os with
  | None => Raise (KeyError os)
  | Some auto =>
      Return
        (mkTransport guesser_new auto false false false
           None None None None None false
           (kw_driver kw) (kw_host kw) (kw_account kw) [] []
           (match kw_debug kw with Some d => d | None => 0%Z end)
           (match kw_timeout kw with Some t => t | None => 30%Z end)
           (match kw_logfile kw with Some _ => Some [] | None => None end)
           None listener EmptyString false chunks closes [])
  end.

(** ** Methods as state transformers that may raise *)

Definition M (A : Type) : Type := Transport -> Transport * outcome A.

Definition ret {A} (a : A) : M A := fun s => (s, Return a).

Definition raise {A} (e : exn) : M A := fun s => (s, Raise e).

Definition out_of_fuel {A} : M A := fun s => (s, OutOfFuel).

Definition bind {A B} (m : M A) (k : A -> M B) : M B := fun s =>
  match m s with
  | (s', Return a) => k a s'
  | (s', Raise e) => (s', Raise e)
  | (s', OutOfFuel) => (s', OutOfFuel)
  end.

Definition gets {A} (f : Transport -> A) : M A := fun s => (s, Return (f s)).

Definition modify (f : Transport -> Transport) : M unit :=
  fun s => (f s, Return tt).

(** [try: m  except <what h answers>: ...]; an exception [h] has no
    clause for goes on up. *)
Definition try_except {A} (m : M A) (h : exn -> option (M A)) : M A := fun s =>
  match m s with
  | (s', Raise e) => match h e with Some k => k s' | None => (s', Raise e) end
  | r => r
  end.

Notation "x <- m ;; k" := (bind m (fun x => k))
  (at level 61, m at next level, right associativity).
Notation "m ;; k" := (bind m (fun _ => k))
  (at level 61, right associativity).

(** [d[key]] on [driver_map] *)
Definition driver_map_getitem (key : string) : M Driver :=
  match driver_map key with
  | Some d => ret d
  | None => raise (KeyError key)
  end.

(** *** Drivers *)

Definition guess_os (s : Transport) : string :=
  guesser_get (os_guesser s) "os".

Definition get_driver (s : Transport) : Driver :=
  match manual_driver s with
  | Some d => d
  | None => auto_driver s
  end.

Definition _dbg (level : Z) (msg : string) : M unit := fun s =>
  if (debug s <? level)%Z then (s, Return tt)
  else (set_stderr (stderr s ++ [name (get_driver s) ++ ": " ++ msg ++ LF]) s,
        Return tt).

(** Modelled from the spec: [cancel_expect] raises [NotImplementedError]
    in this class and is filled in by the adapters, which are not among
    the source files.  It sets a cooperative cancellation flag that the
    match engine checks after each chunk. *)
Definition cancel_expect : M unit := modify (set_cancel_requested true).

Definition _driver_replaced_notify (old new : Driver) : M unit :=
  modify (set_driver_replaced true) ;;
  cancel_expect ;;
  _dbg 1 ("Transport: driver replaced: " ++ name old ++ " -> " ++ name new).

(** [self.data_received_event(data)]: the listeners are called; one of
    them may call [cancel_expect()]. *)
Definition emit_data_received (data : string) : M unit :=
  modify (fun s => set_trace (trace s ++ [DataReceived data]) s) ;;
  listener <- gets data_received_event ;;
  if listener data then cancel_expect else ret tt.

Definition _receive_cb (data : string) : M string :=
  let data := remove_cr_nul data in
  let text := remove_cr data in
  modify (fun s => set_stdout (stdout s ++ [text]) s) ;;
  modify (fun s => match log s with
                   | Some l => set_log (Some (l ++ [text])%list) s
                   | None => s
                   end) ;;
  old_driver <- gets get_driver ;;
  modify (fun s => set_os_guesser (guesser_data_received (os_guesser s) data) s) ;;
  os <- gets guess_os ;;
  d <- driver_map_getitem os ;;
  modify (set_auto_driver d) ;;
  new_driver <- gets get_driver ;;
  (if driver_neq old_driver new_driver
   then _driver_replaced_notify old_driver new_driver
   else ret tt) ;;
  emit_data_received data ;;
  ret data.

Definition _otp_cb (seq : Z) (seed : string) : M unit :=
  modify (fun s => set_trace (trace s ++ [OtpRequested seq seed]) s).

Definition set_driver (driver : driver_arg) : M unit :=
  match driver with
  | DriverNone => modify (set_manual_driver None)
  | DriverName n =>
      match driver_map n with
      | None => raise (TypeError ("no such driver:" ++ repr n))
      | Some d => modify (set_manual_driver (Some d))
      end
  | DriverObject d => modify (set_manual_driver (Some d))
  | DriverOther =>
      (* ['unsupported argument type:' + type(driver)] is itself a TypeError *)
      raise (TypeError "cannot concatenate 'str' and 'type' objects")
  end.

(** *** Prompts: manual overrides and the driver's defaults *)

(** [if x: return x] and else [return d], for an attribute [x] that is
    [None] or a list: [None] and the empty list are both false. *)
Definition or_default {A} (x : option (list A)) (d : list A) : list A :=
  match x with
  | Some (p :: l) => p :: l
  | Some [] => d
  | None => d
  end.

Definition set_prompt_attr (arg : option prompt_arg) : option (list regex) :=
  match arg with
  | None => None
  | Some r => Some (to_regexs r)
  end.

Definition set_username_prompt (arg : option prompt_arg) : M unit :=
  modify (set_manual_user_re (set_prompt_attr arg)).

Definition get_username_prompt (s : Transport) : list regex :=
  or_default (manual_user_re s) (user_re (get_driver s)).

Definition set_password_prompt (arg : option prompt_arg) : M unit :=
  modify (set_manual_password_re (set_prompt_attr arg)).

Definition get_password_prompt (s : Transport) : list regex :=
  or_default (manual_password_re s) (password_re (get_driver s)).

Definition set_prompt (prompt : option prompt_arg) : M unit :=
  modify (set_manual_prompt_re (set_prompt_attr prompt)).

Definition get_prompt (s : Transport) : list regex :=
  or_default (manual_prompt_re s) (prompt_re (get_driver s)).

Definition set_error_prompt (error : option prompt_arg) : M unit :=
  modify (set_manual_error_re (set_prompt_attr error)).

Definition get_error_prompt (s : Transport) : list regex :=
  or_default (manual_error_re s) (error_re (get_driver s)).

Definition set_login_error_prompt (error : option prompt_arg) : M unit :=
  modify (set_manual_login_error_re (set_prompt_attr error)).

Definition get_login_error_prompt (s : Transport) : list regex :=
  or_default (manual_login_error_re s) (login_error_re (get_driver s)).

Definition _get_account (account : option Account) : M Account := fun s =>
  let account := match account with
                 | None => last_account s
                 | Some a => Some a
                 end in
  match account with
  | None => (s, Raise (TypeError "An account is required"))
  | Some a => (set_last_account (Some a) s, Return a)
  end.

(** *** The raw transport and the match engine *)

(** Modelled from the spec: [send] raises [NotImplementedError] in this
    class and is filled in by the adapters, which are not among the
    source files.  The raw transport's [send(bytes)] hands the data to
    the device; here it is recorded among the calls made. *)
Definition send (data : string) : M unit :=
  modify (fun s => set_trace (trace s ++ [Send data]) s).

(** The first pattern, in list order, that matches anywhere in the
    buffer, with its index. *)
Fixpoint first_match_from (i : nat) (prompt : list regex) (buf : string)
  : option (nat * MatchObject) :=
  match prompt with
  | [] => None
  | p :: rest =>
      match re_search p buf with
      | Some m => Some (i, m)
      | None => first_match_from (S i) rest buf
      end
  end.

Definition first_match (prompt : list regex) (buf : string)
  : option (nat * MatchObject) :=
  first_match_from 0 prompt buf.

(** A match was found: the text through its end is the response; in
    consume mode it leaves the buffer. *)
Definition matched (flush : bool) (i : nat) (m : MatchObject)
  : M (nat * MatchObject) := fun s =>
  let s1 := set_response (Some (take (m_end m) (buffer s))) s in
  (if flush then set_buffer (drop (m_end m) (buffer s)) s1 else s1,
   Return (i, m)).

(** The cancellation flag, looked at after a chunk: if set, it is reset
    and the wait fails, with [DriverReplacedException] when the request
    came from [_driver_replaced_notify]. *)
Definition check_cancelled : M unit := fun s =>
  if cancel_requested s then
    let s1 := set_cancel_requested false s in
    if driver_replaced s1
    then (set_driver_replaced false s1, Raise DriverReplacedException)
    else (s1, Raise ExpectCancelledException)
  else (s, Return tt).

(** No chunk is left: end of stream if the transport closed, else the
    timeout elapses, and the exception carries the buffered text.  A
    wait that fails leaves the buffer and the response as they are. *)
Definition starved {A} : M A := fun s =>
  if closed s then (s, Raise EOFError)
  else (s, Raise (TimeoutException (buffer s))).

(** One chunk after the other: append it to the buffer, run the
    data-received path, evaluate the patterns on the whole buffer, look
    at the cancellation flag. *)
Fixpoint feed (prompt : list regex) (flush : bool) (chunks : list string)
  : M (nat * MatchObject) :=
  match chunks with
  | [] => starved
  | data :: rest =>
      modify (fun s => set_incoming rest (set_buffer (buffer s ++ data) s)) ;;
      _receive_cb data ;;
      hit <- gets (fun s => first_match prompt (buffer s)) ;;
      check_cancelled ;;
      match hit with
      | Some (i, m) => matched flush i m
      | None => feed prompt flush rest
      end
  end.

(** Modelled from the spec: [_domatch(prompt, flush)] is defined by the
    adapters, which are not among the source files.  It is the match
    engine's [wait(patterns, consume)]: what is buffered already is
    evaluated first; then every newly received chunk is appended, passed
    to [_receive_cb], and the whole buffer is evaluated against the
    patterns in order; it fails with a timeout, a cancellation, a driver
    replacement or the end of the stream. *)
Definition _domatch (prompt : list regex) (flush : bool)
  : M (nat * MatchObject) := fun s =>
  match first_match prompt (buffer s) with
  | Some (i, m) => matched flush i m s
  | None => feed prompt flush (incoming s) s
  end.

(** [self.os_guesser.response_received()] *)
Definition response_received : M unit :=
  modify (fun s => set_os_guesser (guesser_response_received (os_guesser s)) s).

Definition _waitfor (prompt : prompt_arg) : M (nat * MatchObject) :=
  result <- _domatch (to_regexs prompt) false ;;
  response_received ;;
  ret result.

(** [while True: try: result = attempt except DriverReplacedException:
    continue; return result], with a bound on the iterations. *)
Fixpoint retry {A} (fuel : nat) (attempt : M A) : M A :=
  match fuel with
  | O => out_of_fuel
  | S n =>
      try_except attempt
        (fun e => match e with
                  | DriverReplacedException => Some (retry n attempt)
                  | _ => None
                  end)
  end.

(** Every retry has taken a chunk from the device, so one iteration more
    than there are chunks left is all the loop can make. *)
Definition waitfor (prompt : prompt_arg) : M (nat * MatchObject) := fun s =>
  retry (S (length (incoming s))) (_waitfor prompt) s.

Definition _expect (prompt : prompt_arg) : M (nat * MatchObject) :=
  result <- _domatch (to_regexs prompt) true ;;
  response_received ;;
  ret result.

Definition expect (prompt : prompt_arg) : M (nat * MatchObject) := fun s =>
  retry (S (length (incoming s))) (_expect prompt) s.

(** [for prompt in self.get_error_prompt(): if prompt.match(line): break];
    the value is what [prompt] is bound to after the loop, if anything. *)
Fixpoint error_prompt_loop (errors : list regex) (line : string)
  : option regex :=
  match errors with
  | [] => None
  | prompt :: rest =>
      match re_match prompt line with
      | Some _ => Some prompt
      | None =>
          match error_prompt_loop rest line with
          | Some p => Some p
          | None => Some prompt
          end
      end
  end.

(** The loop over the lines of the response in [expect_prompt]. *)
Fixpoint check_lines (lines : list string) : M unit :=
  match lines with
  | [] => ret tt
  | line :: rest =>
      errors <- gets get_error_prompt ;;
      let match_ : option MatchObject := None in
      let prompt := error_prompt_loop errors line in
      match match_ with
      | None => check_lines rest
      | Some _ =>
          resp <- gets response ;;
          let error := repr (match prompt with
                             | Some p => pattern p
                             | None => ""
                             end) in
          _dbg 5 ("error prompt (" ++ error ++ ") matches " ++ repr line) ;;
          raise (InvalidCommandException
                   ("Device said:" ++ LF ++ match resp with
                                            | Some r => r
                                            | None => ""
                                            end))
      end
  end.

Definition expect_prompt : M value :=
  p <- gets get_prompt ;;
  expect (Many p) ;;
  resp <- gets response ;;
  _dbg 5 ("Checking " ++ match resp with
                         | Some r => repr r
                         | None => "None"
                         end ++ " for errors") ;;
  match resp with
  | None => raise (AttributeError "'NoneType' object has no attribute 'split'")
  | Some r =>
      check_lines (tl (split_lines r)) ;;
      ret VNone
  end.

Definition execute (command : string) : M value :=
  send (command ++ CR) ;;
  expect_prompt.

(** *** Authentication *)

(** [_protocol_authenticate] and [_protocol_authenticate_by_key] do
    nothing in this class; the adapters fill them in.  The call is
    recorded. *)
Definition _protocol_authenticate (user password : string) : M unit :=
  modify (fun s => set_trace (trace s ++ [ProtocolAuthenticate user password]) s).

Definition _protocol_authenticate_by_key (user : string) (key : PrivateKey)
  : M unit :=
  modify (fun s => set_trace (trace s ++ [ProtocolAuthenticateByKey user key]) s).

Definition authenticate (account : option Account) (flush : bool) : M unit :=
  account <- _get_account account ;;
  let user := get_name account in
  let password := get_password account in
  let key := get_key account in
  match key with
  | None =>
      _dbg 1 ("Attempting to authenticate " ++ user ++ ".") ;;
      _protocol_authenticate user password
  | Some key =>
      _dbg 1 ("Authenticate " ++ user ++ " with key.") ;;
      _protocol_authenticate_by_key user key
  end ;;
  modify (set_authenticated true) ;;
  if flush then expect_prompt ;; ret tt else ret tt.

Definition is_authenticated (s : Transport) : bool := authenticated s.

(** The five sections of the race, each with its patterns. *)
Definition prompts (s : Transport) : list (section * list regex) :=
  [ (login_error_section, get_login_error_prompt s);
    (username_section, get_username_prompt s);
    (skey_section, [_skey_re]);
    (password_section, get_password_prompt s);
    (cli_section, get_prompt s) ].

Definition prompt_map (s : Transport) : list (section * regex) :=
  flat_map (fun sp => map (pair (fst sp)) (snd sp)) (prompts s).

Definition prompt_list (s : Transport) : list regex :=
  map snd (prompt_map s).

(** [m.group(n)] and [int(text)] as calls that may raise. *)
Definition py_group (m : MatchObject) (n : nat) : M string :=
  match group m n with
  | Some g => ret g
  | None => raise (IndexError "no such group")
  end.

Definition py_int (text : string) : M Z :=
  match to_Z text with
  | Some z => ret z
  | None => raise (ValueError ("invalid literal for int() with base 10: "
                               ++ repr text))
  end.

Inductive loop_ctl : Type := Continue | Break.

(** What the race does once [_waitfor] returned [index] and [m]. *)
Definition dispatch (user password : string)
  (pm : list (section * regex)) (index : nat) (m : MatchObject)
  : M loop_ctl :=
  match nth_error pm index with
  | None => raise (IndexError "list index out of range")
  | Some (login_error_section, _) => raise (LoginFailure "Login failed")
  | Some (username_section, prompt) =>
      _dbg 1 ("Username prompt " ++ of_nat index ++ " received.") ;;
      expect (One prompt) ;;
      send (user ++ CR) ;;
      ret Continue
  | Some (skey_section, prompt) =>
      _dbg 1 "S/Key prompt received." ;;
      expect (One prompt) ;;
      g1 <- py_group m 1 ;;
      seq <- py_int g1 ;;
      seed <- py_group m 2 ;;
      _otp_cb seq seed ;;
      _dbg 2 ("Seq: " ++ of_Z seq ++ ", Seed: " ++ seed) ;;
      let phrase := otp password seed seq in
      p <- gets get_password_prompt ;;
      expect (Many p) ;;
      send (phrase ++ CR) ;;
      _dbg 1 "Password sent." ;;
      ret Continue
  | Some (password_section, prompt) =>
      _dbg 1 "Cleartext password prompt received." ;;
      expect (One prompt) ;;
      send (password ++ CR) ;;
      ret Continue
  | Some (cli_section, _) =>
      _dbg 1 "Shell prompt received." ;;
      ret Break
  end.

(** One turn of the [while True] loop of [_app_authenticate]. *)
Definition race (user password : string) : M loop_ctl :=
  pm <- gets prompt_map ;;
  pl <- gets prompt_list ;;
  found <- try_except
    (r <- _waitfor (Many pl) ;; ret (Some r))
    (fun e => match e with
              | TimeoutException _ =>
                  Some (modify (fun s => match response s with
                                         | None => set_response (Some "") s
                                         | Some _ => s
                                         end) ;;
                        resp <- gets response ;;
                        raise (TimeoutException
                                 ("Buffer: " ++ repr match resp with
                                                     | Some r => r
                                                     | None => ""
                                                     end)))
              | DriverReplacedException =>
                  Some (_dbg 1 "Transport.app_authenticate(): driver replaced" ;;
                        ret None)
              | ExpectCancelledException =>
                  Some (_dbg 1 "Transport.app_authenticate(): expect cancelled" ;;
                        raise ExpectCancelledException)
              | EOFError =>
                  Some (_dbg 1 "Transport.app_authenticate(): EOF" ;;
                        raise EOFError)
              | _ => None
              end) ;;
  match found with
  | None => ret Continue
  | Some (index, m) => dispatch user password pm index m
  end.

Fixpoint _app_authenticate_loop (fuel : nat) (user password : string)
  : M unit :=
  match fuel with
  | O => out_of_fuel
  | S n =>
      ctl <- race user password ;;
      match ctl with
      | Continue => _app_authenticate_loop n user password
      | Break => ret tt
      end
  end.

Definition _app_authenticate (fuel : nat) (user password : string)
  (flush : bool) : M unit :=
  _app_authenticate_loop fuel user password ;;
  if flush then expect_prompt ;; ret tt else ret tt.

Definition app_authenticate (fuel : nat) (account : option Account)
  (flush : bool) : M unit :=
  account <- _get_account account ;;
  let user := get_name account in
  let password := get_password account in
  _dbg 1 ("Attempting to app-authenticate " ++ user ++ ".") ;;
  _app_authenticate fuel user password flush ;;
  modify (set_app_authenticated true).

Definition is_app_authenticated (s : Transport) : bool := app_authenticated s.

Definition app_authorize (fuel : nat) (account : option Account)
  (flush : bool) : M unit :=
  account <- _get_account account ;;
  let user := get_name account in
  let password := match get_authorization_password account with
                  | None => get_password account
                  | Some p => p
                  end in
  _dbg 1 ("Attempting to app-authorize " ++ user ++ ".") ;;
  _app_authenticate fuel user password flush ;;
  modify (set_app_authorized true).

Definition is_app_authorized (s : Transport) : bool := app_authorized s.

(** The procedures of a driver: [driver.auto_authorize(conn, account,
    flush)] runs on the connection and is the driver's own affair. *)
Class Procedures : Type := {
  auto_authorize : Driver -> Account -> bool -> M unit
}.

Context {P : Procedures}.

Definition auto_app_authorize (account : option Account) (flush : bool)
  : M unit :=
  account <- _get_account account ;;
  _dbg 1 "Calling driver.auto_authorize()." ;;
  d <- gets get_driver ;;
  modify (fun s => set_trace (trace s ++ [AutoAuthorize (name d) account flush]) s) ;;
  auto_authorize d account flush.

Definition login (fuel : nat) (account app_account : option Account)
  (flush : bool) : M unit :=
  account <- _get_account account ;;
  let app_account := match app_account with
                     | None => account
                     | Some a => a
                     end in
  authenticate (Some account) false ;;
  app_authenticate fuel (Some app_account) false ;;
  auto_app_authorize (Some app_account) flush.

End Model.

Notation "x <- m ;; k" := (bind m (fun x => k))
  (at level 61, m at next level, right associativity).
Notation "m ;; k" := (bind m (fun _ => k))
  (at level 61, right associativity).

(** ** The vocabulary of the properties *)

Section Vocabulary.

Context {C : Collaborators}.

(** What no wait and no received chunk changes: the manual overrides,
    the pinned driver, the listeners, the session flags. *)
Record settings_kept (s s' : Transport) : Prop := {
  kept_user_re : manual_user_re s' = manual_user_re s;
  kept_password_re : manual_password_re s' = manual_password_re s;
  kept_prompt_re : manual_prompt_re s' = manual_prompt_re s;
  kept_error_re : manual_error_re s' = manual_error_re s;
  kept_login_error_re : manual_login_error_re s' = manual_login_error_re s;
  kept_manual_driver : manual_driver s' = manual_driver s;
  kept_closed : closed s' = closed s;
  kept_listener : data_received_event s' = data_received_event s;
  kept_debug : debug s' = debug s;
  kept_last_account : last_account s' = last_account s;
  kept_authenticated : authenticated s' = authenticated s;
  kept_app_authenticated : app_authenticated s' = app_authenticated s;
  kept_app_authorized : app_authorized s' = app_authorized s
}.

(** The chunks of a list put end to end. *)
Fixpoint joined (chunks : list string) : string :=
  match chunks with
  | [] => EmptyString
  | c :: rest => c ++ joined rest
  end.

(** The calls to the listeners that the chunks [used] give rise to. *)
Definition received (used : list string) : list Call :=
  map (fun data => DataReceived (remove_cr_nul data)) used.

(** What a wait that started at [s] and took the chunks [used] from the
    device has come to at [s'], by outcome.  [all] is everything buffered
    by then. *)
Definition wait_post (prompt : list regex) (flush : bool)
  (s : Transport) (used : list string) (s' : Transport)
  (r : outcome (nat * MatchObject)) : Prop :=
  let all := buffer s ++ joined used in
  match r with
  | Return (i, m) =>
      first_match prompt all = Some (i, m) /\
      response s' = Some (take (m_end m) all) /\
      buffer s' = (if flush then drop (m_end m) all else all) /\
      trace s' = (trace s ++ received used)%list /\
      get_driver s' = get_driver s /\
      driver_replaced s' = driver_replaced s /\
      cancel_requested s' = cancel_requested s
  | Raise (TimeoutException msg) =>
      incoming s' = [] /\ buffer s' = all /\ response s' = response s /\
      msg = all /\ closed s = false
  | Raise EOFError =>
      incoming s' = [] /\ buffer s' = all /\ closed s = true
  | Raise DriverReplacedException
  | Raise ExpectCancelledException =>
      buffer s' = all /\ used <> [] /\
      trace s' = (trace s ++ received used)%list /\
      response s' = response s
  | Raise (KeyError _) =>
      buffer s' = all /\ used <> []
  | Raise _ => False
  | OutOfFuel => False
  end.

(** [Retried attempt s s0]: starting at [s], the attempt was made again
    and again, each time ending in [DriverReplacedException], until the
    connection was at [s0]. *)
Inductive Retried {A : Type} (attempt : M A) : Transport -> Transport -> Prop :=
| Retried_here (s : Transport) : Retried attempt s s
| Retried_again (s s1 s0 : Transport) :
    attempt s = (s1, Raise DriverReplacedException) ->
    Retried attempt s1 s0 ->
    Retried attempt s s0.

(** What [waitfor] ([flush] false) or [expect] ([flush] true), started at
    [s], has come to at [s'] after the device delivered [used]. *)
Definition public_post (prompt : list regex) (flush : bool)
  (s : Transport) (used : list string) (s' : Transport)
  (r : outcome (nat * MatchObject)) : Prop :=
  let all := buffer s ++ joined used in
  match r with
  | Return (i, m) =>
      first_match prompt all = Some (i, m) /\
      response s' = Some (take (m_end m) all) /\
      buffer s' = (if flush then drop (m_end m) all else all) /\
      trace s' = (trace s ++ received used)%list
  | Raise (TimeoutException msg) =>
      incoming s' = [] /\ buffer s' = all /\ response s' = response s /\
      msg = all
  | Raise EOFError => incoming s' = [] /\ buffer s' = all
  | Raise ExpectCancelledException
  | Raise (KeyError _) => buffer s' = all
  | Raise _ => False
  | OutOfFuel => False
  end.

(** A method that never ends in [DriverReplacedException]. *)
Definition never_driver_replaced {A : Type} (m : M A) : Prop :=
  forall s, is_driver_replaced (snd (m s)) = false.

(** A turn of the race that never leaves the loop. *)
Definition never_breaks (m : M loop_ctl) : Prop :=
  forall s s', m s <> (s', Return Break).

(** A call to the listeners of [data_received_event]. *)
Definition is_data_received (c : Call) : Prop :=
  match c with
  | DataReceived _ => True
  | _ => False
  end.

(** The calls an application level login may make for [user] and
    [password]: calls to the listeners, and sending the user name, the
    password or a one-time password made from it, each followed by a
    carriage return. *)
Definition credential_call (user password : string) (c : Call) : Prop :=
  match c with
  | DataReceived _ => True
  | OtpRequested _ _ => True
  | Send data =>
      data = user ++ CR \/ data = password ++ CR \/
      exists seed seq, data = otp password seed seq ++ CR
  | _ => False
  end.

(** [grown Q s s']: between [s] and [s'] the settings were kept, every
    call made is in [Q], the chunks of the device were taken from the
    front, and, with a debug level below 1, nothing was written to
    stderr. *)
Record grown (Q : Call -> Prop) (s s' : Transport) : Prop := {
  grown_settings : settings_kept s s';
  grown_trace : exists l, trace s' = (trace s ++ l)%list /\ Forall Q l;
  grown_incoming : exists used, incoming s = (used ++ incoming s')%list;
  grown_stderr : (debug s < 1)%Z -> stderr s' = stderr s
}.

(** A method that, whatever it comes to, leaves the connection [grown]. *)
Definition keeps (Q : Call -> Prop) {A : Type} (m : M A) : Prop :=
  forall s s' r, m s = (s', r) -> grown Q s s'.

(** The manual overrides and the pinned driver are the same at [s'] as
    at [s]. *)
Definition overrides_kept (s s' : Transport) : Prop :=
  manual_user_re s' = manual_user_re s /\
  manual_password_re s' = manual_password_re s /\
  manual_prompt_re s' = manual_prompt_re s /\
  manual_error_re s' = manual_error_re s /\
  manual_login_error_re s' = manual_login_error_re s /\
  manual_driver s' = manual_driver s.

(** The driver in use and the patterns of the five categories are the
    same at [s'] as at [s]. *)
Definition same_prompts (s s' : Transport) : Prop :=
  get_driver s' = get_driver s /\
  get_username_prompt s' = get_username_prompt s /\
  get_password_prompt s' = get_password_prompt s /\
  get_prompt s' = get_prompt s /\
  get_error_prompt s' = get_error_prompt s /\
  get_login_error_prompt s' = get_login_error_prompt s.




End Vocabulary.

(** ** A small world to run the class in

    A regular expression library that reads a pattern as literal text
    (and knows [_skey_re]), a guesser that recognises one banner, two
    drivers, and a stand-in for the one-time password function. *)

Module Demo.

(** Where [p] first occurs in [s], trying at most [fuel] positions. *)
Fixpoint find_from (fuel i : nat) (p s : string) : option nat :=
  if prefix p s then Some i
  else match fuel, s with
       | S k, String _ r => find_from k (S i) p r
       | _, _ => None
       end.

Definition find (p s : string) : option nat :=
  find_from (String.length s) 0 p s.

Definition is_digit (c : ascii) : bool :=
  let n := nat_of_ascii c in ((48 <=? n)%nat && (n <=? 57)%nat)%bool.

(** Python's [\s] on a byte string. *)
Definition is_space (c : ascii) : bool :=
  let n := nat_of_ascii c in
  ((n =? 32)%nat || ((9 <=? n)%nat && (n <=? 13)%nat))%bool.

Fixpoint span (f : ascii -> bool) (s : string) : string * string :=
  match s with
  | EmptyString => (EmptyString, EmptyString)
  | String c r =>
      if f c then let (a, b) := span f r in (String c a, b)
      else (EmptyString, s)
  end.

Definition strip_prefix (p s : string) : option string :=
  if prefix p s then Some (drop (String.length p) s) else None.

(** [_skey_re] tried at the start of [s]: the length of the match and
    its two groups. *)
Definition skey_here (s : string) : option (nat * list string) :=
  let after_word :=
    match strip_prefix "s/key " s with
    | Some r => Some (6, r)
    | None =>
        match strip_prefix "otp-md4 " s with
        | Some r => Some (8, r)
        | None => None
        end
    end in
  match after_word with
  | None => None
  | Some (n, r) =>
      let (digits, r1) := span is_digit r in
      match digits, r1 with
      | String _ _, String " " r2 =>
          let (seed, _) := span (fun c => negb (is_space c)) r2 in
          match seed with
          | String _ _ =>
              Some (n + String.length digits + 1 + String.length seed,
                    [digits; seed])
          | EmptyString => None
          end
      | _, _ => None
      end
  end.

Fixpoint skey_search_from (i : nat) (s : string) : option MatchObject :=
  match skey_here s with
  | Some (len, groups) => Some (mkMatch i (i + len) groups)
  | None =>
      match s with
      | String _ r => skey_search_from (S i) r
      | EmptyString => None
      end
  end.

Definition search (r : regex) (s : string) : option MatchObject :=
  if String.eqb (pattern r) (pattern _skey_re) then skey_search_from 0 s
  else match find (pattern r) s with
       | Some i => Some (mkMatch i (i + String.length (pattern r)) [])
       | None => None
       end.

Definition match_ (r : regex) (s : string) : option MatchObject :=
  if String.eqb (pattern r) (pattern _skey_re)
  then match skey_here s with
       | Some (len, groups) => Some (mkMatch 0 len groups)
       | None => None
       end
  else if prefix (pattern r) s
       then Some (mkMatch 0 (String.length (pattern r)) [])
       else None.

Definition generic : Driver :=
  mkDriver "generic"
    [re_compile "sername:"] [re_compile "assword:"] [re_compile "> "]
    [re_compile "% Invalid"] [re_compile "Login incorrect"].

Definition ios : Driver :=
  mkDriver "ios"
    [re_compile "Username:"] [re_compile "Password:"] [re_compile "#"]
    [re_compile "% Invalid"] [re_compile "% Bad passwords"].

Definition drivers (key : string) : option Driver :=
  if String.eqb key "generic" then Some generic
  else if String.eqb key "ios" then Some ios
  else None.

(** The guess is [ios] once a chunk shows the vendor's banner. *)
Definition observe (g data : string) : string :=
  match find "Cisco" data with
  | Some _ => "ios"
  | None => g
  end.

Definition one_time (password seed : string) (seq : Z) : string :=
  "otp(" ++ password ++ "," ++ seed ++ "," ++ of_Z seq ++ ")".

#[export] Instance world : Collaborators := {
  re_search := search;
  re_match := match_;
  Guesser := string;
  guesser_new := "generic";
  guesser_data_received := observe;
  guesser_response_received := fun g => g;
  guesser_get := fun g _ => g;
  driver_map := drivers;
  otp := one_time
}.

(** The [ios] driver sends [enable] and authorizes; the others do
    nothing. *)
#[export] Instance procedures : Procedures := {
  auto_authorize := fun d account flush =>
    if String.eqb (name d) "ios"
    then send ("enable" ++ CR) ;; app_authorize 8 (Some account) flush
    else ret tt
}.

(** A fresh connection, as [__init__()] leaves it, nobody listening, to
    a device that will deliver [chunks] and then stay silent. *)
Definition connection (chunks : list string) : Transport :=
  match __init__ (mkKwargs None None None None None None) (fun _ => false)
          chunks false with
  | Return s => s
  | _ =>
      mkTransport guesser_new generic false false false
        None None None None None false None None None [] [] 0%Z 30%Z None None
        (fun _ => false) EmptyString false chunks false []
  end.

Definition alice : Account := mkAccount "alice" "secret" None None.

Definition bob : Account := mkAccount "bob" "hunter2" (Some "enable2") (Some "id_rsa").

(** *** Devices *)

(** A device that echoes the command, complains, and prompts again. *)
Definition complaining_device : Transport :=
  connection ["show foo" ++ LF ++ "% Invalid input" ++ LF ++ "router> "].

(** A device that asks for a one-time password. *)
Definition skey_device : Transport :=
  connection ["otp-md4 99 ab1234 ext" ++ LF; "Password:"; "router> "].

Definition skey_match : MatchObject := mkMatch 0 17 ["99"; "ab1234"].

(** A device with a user name and a password prompt. *)
Definition plain_device : Transport :=
  connection ["Username:"; "Password:"; "router> "].


(** A connection with the [generic] driver pinned; it will receive the
    banner that would otherwise change the guess. *)
Definition pinned : Transport :=
  fst (set_driver (DriverObject generic) (connection [])).

(** A device whose banner changes the guess while [waitfor] waits. *)
Definition talkative_device : Transport := connection ["Cisco IOS"; "router#"].

(** A device that shows its banner with the user name prompt, asks for
    the password and gives a shell. *)
Definition ios_device : Transport :=
  connection ["Cisco IOS" ++ LF ++ "Username:"; "Password:"; "router#"].

(** A connection that was given [alice]'s account before. *)
Definition remembering : Transport :=
  set_last_account (Some alice) plain_device.

(** A connection whose guesser has settled on an operating system that
    [drivers] does not know. *)
Definition strange_guess : Transport :=
  set_os_guesser "vms" (connection ["Welcome to VMS"]).

(** A device that refuses the login and asks for the user name again. *)
Definition rejecting_device : Transport :=
  connection ["Login incorrect" ++ LF ++ "Username:"].

(** The [generic] driver pinned on a device whose banner would change
    the guess. *)
Definition pinned_talkative : Transport :=
  fst (set_driver (DriverObject generic) talkative_device).


End Demo.

(** * Properties *)

Section Getters.

Context {C : Collaborators}.

Lemma or_default_cons {A} (p : A) (l d : list A) :
  or_default (Some (p :: l)) d = p :: l.
Proof. reflexivity. Qed.

Lemma or_default_None {A} (d : list A) : or_default None d = d.
Proof. reflexivity. Qed.

Lemma or_default_nil {A} (d : list A) : or_default (Some []) d = d.
Proof. reflexivity. Qed.

(** C9, as the code has it: for each of the five categories the getter
    returns the manual override whenever a non-empty one is set, and the
    active driver's value when none is set. *)
Theorem C9_getters_prefer_nonempty_override (s : Transport) :
  (forall p l,
      (manual_user_re s = Some (p :: l) -> get_username_prompt s = p :: l) /\
      (manual_password_re s = Some (p :: l) -> get_password_prompt s = p :: l) /\
      (manual_prompt_re s = Some (p :: l) -> get_prompt s = p :: l) /\
      (manual_error_re s = Some (p :: l) -> get_error_prompt s = p :: l) /\
      (manual_login_error_re s = Some (p :: l) ->
       get_login_error_prompt s = p :: l)) /\
  (manual_user_re s = None ->
   get_username_prompt s = user_re (get_driver s)) /\
  (manual_password_re s = None ->
   get_password_prompt s = password_re (get_driver s)) /\
  (manual_prompt_re s = None -> get_prompt s = prompt_re (get_driver s)) /\
  (manual_error_re s = None -> get_error_prompt s = error_re (get_driver s)) /\
  (manual_login_error_re s = None ->
   get_login_error_prompt s = login_error_re (get_driver s)).
Proof.
  unfold get_username_prompt, get_password_prompt, get_prompt,
    get_error_prompt, get_login_error_prompt.
  split.
  - intros p l; repeat split; intros ->; apply or_default_cons.
  - repeat split; intros ->; apply or_default_None.
Qed.

(** An override that is an empty list counts as no override. *)
Lemma getters_ignore_empty_override (s : Transport) :
  (manual_user_re s = Some [] ->
   get_username_prompt s = user_re (get_driver s)) /\
  (manual_password_re s = Some [] ->
   get_password_prompt s = password_re (get_driver s)) /\
  (manual_prompt_re s = Some [] -> get_prompt s = prompt_re (get_driver s)) /\
  (manual_error_re s = Some [] -> get_error_prompt s = error_re (get_driver s)) /\
  (manual_login_error_re s = Some [] ->
   get_login_error_prompt s = login_error_re (get_driver s)).
Proof.
  unfold get_username_prompt, get_password_prompt, get_prompt,
    get_error_prompt, get_login_error_prompt.
  repeat split; intros ->; apply or_default_nil.
Qed.

End Getters.

(** C9 as stated fails: [set_username_prompt([])] sets a manual override,
    and [get_username_prompt()] still returns the driver's default. *)
Lemma C9_empty_override_is_ignored :
  let s := fst (set_username_prompt (Some (Many [])) (Demo.connection [])) in
  manual_user_re s = Some [] /\
  get_username_prompt s = user_re (get_driver s) /\
  get_username_prompt s <> [].
Proof. cbn. repeat split. discriminate. Qed.

Lemma C9_getters_witness :
  let s := fst (set_prompt (Some (One (re_compile "$ "))) (Demo.connection [])) in
  manual_prompt_re s = Some [re_compile "$ "] /\
  get_prompt s = [re_compile "$ "] /\
  get_username_prompt s = [re_compile "sername:"].
Proof.
  cbn zeta.
  pose proof (C9_getters_prefer_nonempty_override
                (fst (set_prompt (Some (One (re_compile "$ ")))
                        (Demo.connection [])))) as [Hset Hunset].
  destruct (Hset (re_compile "$ ") []) as (_ & _ & Hprompt & _).
  destruct Hunset as (Huser & _).
  split; [reflexivity | split].
  - apply Hprompt. reflexivity.
  - rewrite Huser by reflexivity. reflexivity.
Defined.

Section Engine.

Context {C : Collaborators}.

(** Unfolding the plumbing of the monad. *)
Ltac plumbing :=
  unfold bind, ret, raise, gets, modify, out_of_fuel, try_except in *.

Lemma settings_kept_refl s : settings_kept s s.
Proof. constructor; reflexivity. Qed.

Lemma settings_kept_trans s1 s2 s3 :
  settings_kept s1 s2 -> settings_kept s2 s3 -> settings_kept s1 s3.
Proof. intros [] []; constructor; congruence. Qed.

Lemma driver_neq_refl d : driver_neq d d = false.
Proof. unfold driver_neq. destruct (Driver_eq_dec d d); congruence. Qed.

Lemma driver_neq_false a b : driver_neq a b = false -> a = b.
Proof. unfold driver_neq. destruct (Driver_eq_dec a b); congruence. Qed.

Lemma _dbg_cases level msg s :
  exists err, _dbg level msg s = (set_stderr err s, Return tt) /\
              (debug s < level -> err = stderr s)%Z.
Proof.
  unfold _dbg. destruct (debug s <? level)%Z eqn:E.
  - exists (stderr s). split; [destruct s; reflexivity | reflexivity].
  - eexists. split; [reflexivity | ]. apply Z.ltb_ge in E. lia.
Qed.

(** C10: while a manual driver is pinned, a received chunk never sets
    off [_driver_replaced_notify]: [get_driver] is the pinned driver
    before and after the guess is updated, so [driver_replaced] keeps
    its value, nothing is written to stderr, and the cancellation flag
    is set only if a listener of [data_received_event] asks for it. *)
Theorem C10_pinned_driver_is_never_replaced
  (data : string) (s : Transport) (d : Driver) :
  manual_driver s = Some d ->
  let s' := fst (_receive_cb data s) in
  let r := snd (_receive_cb data s) in
  get_driver s = d /\ get_driver s' = d /\
  driver_replaced s' = driver_replaced s /\
  stderr s' = stderr s /\
  cancel_requested s' =
    (cancel_requested s
     || (returns r && data_received_event s (remove_cr_nul data)))%bool.
Proof.
  intros Hpin. cbn zeta.
  unfold _receive_cb, driver_map_getitem, emit_data_received,
    _driver_replaced_notify, cancel_expect, get_driver, guess_os.
  plumbing. cbn. rewrite Hpin.
  destruct (log s); cbn; rewrite ?Hpin;
    (destruct (driver_map _); cbn; rewrite ?Hpin;
     [ rewrite driver_neq_refl; cbn;
       destruct (data_received_event s (remove_cr_nul data)); cbn;
       rewrite ?Hpin, ?orb_true_r, ?orb_false_r; auto
     | rewrite ?orb_false_r; auto ]).
Qed.

(** What receiving a chunk does to the connection. *)
Lemma _receive_cb_spec (data : string) (s : Transport) :
  exists s' r,
    _receive_cb data s = (s', r) /\
    settings_kept s s' /\
    buffer s' = buffer s /\ incoming s' = incoming s /\
    response s' = response s /\
    ((exists k, r = Raise (KeyError k) /\ trace s' = trace s /\
                cancel_requested s' = cancel_requested s /\
                driver_replaced s' = driver_replaced s)
     \/ (r = Return (remove_cr_nul data) /\
         trace s' = (trace s ++ [DataReceived (remove_cr_nul data)])%list /\
         (cancel_requested s' = false ->
          get_driver s' = get_driver s /\
          cancel_requested s = false /\
          driver_replaced s' = driver_replaced s))).
Proof.
  unfold _receive_cb, driver_map_getitem, emit_data_received,
    _driver_replaced_notify, cancel_expect, guess_os.
  plumbing. cbn.
  set (s0 := match log s with Some _ => _ | None => _ end).
  assert (H0 : settings_kept s s0 /\ buffer s0 = buffer s /\
               incoming s0 = incoming s /\ response s0 = response s /\
               trace s0 = trace s /\ cancel_requested s0 = cancel_requested s /\
               driver_replaced s0 = driver_replaced s /\
               get_driver s0 = get_driver s /\ os_guesser s0 = os_guesser s).
  { subst s0. destruct (log s); cbn; repeat split; reflexivity. }
  destruct H0 as (K0 & B0 & I0 & R0 & T0 & C0 & D0 & G0 & O0).
  destruct (driver_map _) as [d|] eqn:Hd; cbn.
  - destruct (driver_neq _ _) eqn:Hneq; cbn.
    + unfold _dbg; cbn.
      destruct (debug s0 <? 1)%Z; cbn;
      destruct (data_received_event s0 (remove_cr_nul data)); cbn;
        (do 2 eexists; split; [reflexivity | ]; cbn;
         split; [destruct K0; constructor; cbn; assumption | ];
         repeat (split; [assumption | ]);
         right; split; [reflexivity | split; [ | discriminate]]).
      all: rewrite T0; reflexivity.
    + apply driver_neq_false in Hneq.
      destruct (data_received_event s0 (remove_cr_nul data)); cbn;
        (do 2 eexists; split; [reflexivity | ]; cbn;
         split; [destruct K0; constructor; cbn; assumption | ];
         repeat (split; [assumption | ]);
         right; split; [reflexivity | split; [rewrite T0; reflexivity | ]]).
      * discriminate.
      * intros Hc. unfold get_driver in *; cbn in *. repeat split; congruence.
  - do 2 eexists; split; [reflexivity | ]; cbn.
    split; [destruct K0; constructor; cbn; assumption | ].
    repeat (split; [assumption | ]).
    left. eexists. repeat split; assumption.
Qed.

Lemma append_nil_r (s : string) : s ++ "" = s.
Proof. induction s; cbn; congruence. Qed.

Lemma append_assoc (a b c : string) : (a ++ b) ++ c = a ++ b ++ c.
Proof. induction a; cbn; congruence. Qed.

Lemma take_drop (n : nat) (s : string) : take n s ++ drop n s = s.
Proof.
  revert s; induction n as [|n IH]; intros [|c r]; cbn; try reflexivity.
  now rewrite IH.
Qed.

Lemma check_cancelled_cases (s : Transport) :
  (cancel_requested s = false /\ check_cancelled s = (s, Return tt)) \/
  (cancel_requested s = true /\
   exists s', settings_kept s s' /\ buffer s' = buffer s /\
              incoming s' = incoming s /\ trace s' = trace s /\
              response s' = response s /\
              (check_cancelled s = (s', Raise DriverReplacedException) \/
               check_cancelled s = (s', Raise ExpectCancelledException))).
Proof.
  unfold check_cancelled.
  destruct (cancel_requested s) eqn:Hc; [right | left; auto].
  split; [reflexivity | ]. cbn.
  destruct (driver_replaced s).
  - exists (set_driver_replaced false (set_cancel_requested false s)).
    split; [constructor; reflexivity | ]. cbn. auto 7.
  - exists (set_cancel_requested false s).
    split; [constructor; reflexivity | ]. cbn. auto 7.
Qed.

Lemma feed_spec (prompt : list regex) (flush : bool) (chunks : list string) :
  forall s s' r,
    incoming s = chunks ->
    feed prompt flush chunks s = (s', r) ->
    settings_kept s s' /\
    exists used, incoming s = (used ++ incoming s')%list /\
                 wait_post prompt flush s used s' r.
Proof.
  induction chunks as [|data rest IH]; intros s s' r Hin Hrun.
  - (* nothing left to receive *)
    cbn in Hrun. unfold starved in Hrun.
    destruct (closed s) eqn:Hcl; inversion Hrun; subst; clear Hrun.
    + split; [apply settings_kept_refl | ]. exists []. cbn.
      rewrite append_nil_r. repeat split; auto.
    + split; [apply settings_kept_refl | ]. exists []. cbn.
      rewrite append_nil_r. repeat split; auto.
  - cbn [feed] in Hrun. plumbing.
    set (s1 := set_incoming rest (set_buffer (buffer s ++ data) s)) in *.
    destruct (_receive_cb_spec data s1)
      as (s2 & r2 & Hcb & K2 & B2 & I2 & R2 & Hcases).
    rewrite Hcb in Hrun. clear Hcb.
    assert (K1 : settings_kept s s2).
    { destruct K2; constructor; cbn in *; assumption. }
    destruct Hcases as [(k & -> & T2 & C2 & D2) | (-> & T2 & Hquiet)].
    + (* the driver table has no entry for the guess *)
      inversion Hrun; subst; clear Hrun.
      split; [assumption | ]. exists [data]. rewrite Hin, I2. cbn.
      rewrite B2, append_nil_r. split; [reflexivity | ]. split; [reflexivity | ].
      discriminate.
    + destruct (check_cancelled_cases s2)
        as [(Hc & Hchk) | (Hc & s3 & K3 & B3 & I3 & T3 & P3 & [Hchk | Hchk])];
        rewrite Hchk in Hrun; clear Hchk.
      * destruct (Hquiet Hc) as (G2 & C1 & D2).
        destruct (first_match prompt (buffer s2)) as [[i m]|] eqn:Hhit.
        -- (* a pattern matches *)
           unfold matched in Hrun. inversion Hrun; subst; clear Hrun.
           split.
           { destruct K1; destruct flush; constructor; cbn; assumption. }
           exists [data]. unfold wait_post. cbn [joined].
           rewrite append_nil_r. cbn in B2, I2, T2, D2, C1.
           unfold get_driver in *.
           destruct flush; cbn in *; rewrite ?B2, ?I2, ?Hin, ?T2;
             repeat split; auto; congruence.
        -- (* no match yet: on to the next chunk *)
           destruct (IH s2 s' r) as (K & used & Hused & Hpost);
             [rewrite I2; reflexivity | assumption | ].
           split; [eapply settings_kept_trans; eassumption | ].
           exists (data :: used). rewrite Hin. split.
           { cbn. f_equal. rewrite I2 in Hused. exact Hused. }
           unfold wait_post in *. cbn [joined].
           rewrite B2 in Hpost. cbn in Hpost.
           rewrite <- append_assoc.
           destruct r as [[i m]| e |]; [ | | exact Hpost].
           ++ destruct Hpost as (H1 & H2 & H3 & H4 & H5 & H6 & H7).
              repeat split; try assumption.
              ** rewrite H4, T2. cbn. rewrite <- app_assoc. reflexivity.
              ** unfold get_driver in *; cbn in *; congruence.
              ** cbn in *; congruence.
              ** cbn in *; congruence.
           ++ destruct e; try exact Hpost.
              ** destruct Hpost as (H1 & H2 & H3 & H4 & H5).
                 repeat split; try assumption.
                 { rewrite H3, R2. reflexivity. }
                 destruct K2; cbn in *; congruence.
              ** destruct Hpost as (H1 & H2 & H3 & H4).
                 split; [assumption | split; [discriminate | ]].
                 split; [ | rewrite H4, R2; reflexivity].
                 rewrite H3, T2. cbn. rewrite <- app_assoc. reflexivity.
              ** destruct Hpost as (H1 & H2 & H3 & H4).
                 split; [assumption | split; [discriminate | ]].
                 split; [ | rewrite H4, R2; reflexivity].
                 rewrite H3, T2. cbn. rewrite <- app_assoc. reflexivity.
              ** destruct Hpost as (H1 & H2 & H3).
                 repeat split; try assumption. destruct K2; cbn in *; congruence.
              ** destruct Hpost; split; [assumption | discriminate].
      * inversion Hrun; subst; clear Hrun.
        split; [eapply settings_kept_trans; eassumption | ].
        exists [data]. rewrite Hin, I3, I2. cbn. rewrite append_nil_r.
        split; [reflexivity | ].
        split; [rewrite B3, B2; reflexivity | split; [discriminate | ]].
        split; [rewrite T3, T2; reflexivity | ].
        rewrite P3, R2. reflexivity.
      * inversion Hrun; subst; clear Hrun.
        split; [eapply settings_kept_trans; eassumption | ].
        exists [data]. rewrite Hin, I3, I2. cbn. rewrite append_nil_r.
        split; [reflexivity | ].
        split; [rewrite B3, B2; reflexivity | split; [discriminate | ]].
        split; [rewrite T3, T2; reflexivity | ].
        rewrite P3, R2. reflexivity.
Qed.

Lemma _domatch_spec (prompt : list regex) (flush : bool) (s s' : Transport)
  (r : outcome (nat * MatchObject)) :
  _domatch prompt flush s = (s', r) ->
  settings_kept s s' /\
  exists used, incoming s = (used ++ incoming s')%list /\
               wait_post prompt flush s used s' r.
Proof.
  unfold _domatch.
  destruct (first_match prompt (buffer s)) as [[i m]|] eqn:Hhit.
  - unfold matched. intros Hrun; inversion Hrun; subst; clear Hrun.
    split; [destruct flush; constructor; reflexivity | ].
    exists []. unfold wait_post. cbn [joined received map].
    rewrite append_nil_r, app_nil_r. unfold get_driver.
    destruct flush; cbn; repeat split; auto.
  - apply feed_spec. reflexivity.
Qed.

Lemma wait_post_os_guesser prompt flush s used s' r g :
  wait_post prompt flush s used s' r ->
  wait_post prompt flush s used (set_os_guesser g s') r.
Proof.
  unfold wait_post, get_driver.
  destruct r as [[i m]|e|]; [ | destruct e | ]; cbn; auto.
Qed.

(** One attempt of a wait: [_domatch], then the guesser is told that a
    response was received. *)
Lemma attempt_spec (prompt : list regex) (flush : bool) (s s' : Transport)
  (r : outcome (nat * MatchObject)) :
  (result <- _domatch prompt flush ;; response_received ;; ret result) s
  = (s', r) ->
  settings_kept s s' /\
  exists used, incoming s = (used ++ incoming s')%list /\
               wait_post prompt flush s used s' r.
Proof.
  unfold response_received. plumbing.
  destruct (_domatch prompt flush s) as [s0 r0] eqn:Hrun.
  apply _domatch_spec in Hrun. destruct Hrun as (K & used & Hused & Hpost).
  destruct r0 as [[i m]|e|]; intros Heq; inversion Heq; subst; clear Heq.
  - split; [destruct K; constructor; cbn; assumption | ].
    exists used. split; [exact Hused | ].
    now apply wait_post_os_guesser.
  - split; [exact K | ]. exists used. auto.
  - destruct Hpost.
Qed.

Lemma _waitfor_spec (prompt : prompt_arg) (s s' : Transport)
  (r : outcome (nat * MatchObject)) :
  _waitfor prompt s = (s', r) ->
  settings_kept s s' /\
  exists used, incoming s = (used ++ incoming s')%list /\
               wait_post (to_regexs prompt) false s used s' r.
Proof. apply attempt_spec. Qed.

Lemma _expect_spec (prompt : prompt_arg) (s s' : Transport)
  (r : outcome (nat * MatchObject)) :
  _expect prompt s = (s', r) ->
  settings_kept s s' /\
  exists used, incoming s = (used ++ incoming s')%list /\
               wait_post (to_regexs prompt) true s used s' r.
Proof. apply attempt_spec. Qed.

Lemma joined_app (a b : list string) : joined (a ++ b) = joined a ++ joined b.
Proof. induction a; cbn; [reflexivity | ]. now rewrite IHa, append_assoc. Qed.

Lemma received_app (a b : list string) :
  received (a ++ b) = (received a ++ received b)%list.
Proof. apply map_app. Qed.

(** The retry loop of [waitfor] and [expect]: with more fuel than there
    are chunks left it ends, on the first attempt that does not end in
    [DriverReplacedException], and nothing received meanwhile is lost. *)
Lemma retry_spec (prompt : list regex) (flush : bool)
  (attempt : M (nat * MatchObject)) :
  (forall s s' r,
      attempt s = (s', r) ->
      settings_kept s s' /\
      exists used, incoming s = (used ++ incoming s')%list /\
                   wait_post prompt flush s used s' r) ->
  forall fuel s,
    length (incoming s) < fuel ->
    exists s0 used0,
      Retried attempt s s0 /\
      retry fuel attempt s = attempt s0 /\
      is_driver_replaced (snd (attempt s0)) = false /\
      settings_kept s s0 /\
      incoming s = (used0 ++ incoming s0)%list /\
      buffer s0 = buffer s ++ joined used0 /\
      trace s0 = (trace s ++ received used0)%list /\
      response s0 = response s.
Proof.
  intros Hatt fuel. induction fuel as [|fuel IH]; intros s Hlen; [lia | ].
  cbn [retry]. unfold try_except.
  destruct (attempt s) as [s1 r1] eqn:Hrun.
  destruct (Hatt _ _ _ Hrun) as (K & used & Hused & Hpost).
  assert (Hstop : is_driver_replaced r1 = false ->
                  exists s0 used0,
                    Retried attempt s s0 /\
                    (s1, r1) = attempt s0 /\
                    is_driver_replaced (snd (attempt s0)) = false /\
                    settings_kept s s0 /\
                    incoming s = (used0 ++ incoming s0)%list /\
                    buffer s0 = buffer s ++ joined used0 /\
                    trace s0 = (trace s ++ received used0)%list /\
                    response s0 = response s).
  { intros Hno. exists s, []. rewrite Hrun. cbn.
    rewrite append_nil_r, app_nil_r.
    repeat split; auto using settings_kept_refl. constructor. }
  destruct r1 as [a|e|]; [now apply Hstop | | now apply Hstop].
  destruct e; try (now apply Hstop).
  (* the driver was replaced: go round again *)
  clear Hstop. cbn in Hpost. destruct Hpost as (Hbuf & Hne & Htr & Hresp).
  assert (Hshort : length (incoming s1) < fuel).
  { rewrite Hused, length_app in Hlen. destruct used; [congruence | ].
    cbn in Hlen. lia. }
  destruct (IH s1 Hshort)
    as (s0 & used0 & Hre & Hret & Hno & K0 & Hu0 & Hb0 & Ht0 & Hr0).
  exists s0, (used ++ used0)%list.
  split; [econstructor; eassumption | ].
  split; [exact Hret | ]. split; [exact Hno | ].
  split; [eapply settings_kept_trans; eassumption | ].
  split; [rewrite Hused, Hu0, app_assoc; reflexivity | ].
  split; [ | split].
  - rewrite Hb0, Hbuf, joined_app, append_assoc. reflexivity.
  - rewrite Ht0, Htr, received_app, app_assoc. reflexivity.
  - rewrite Hr0, Hresp. reflexivity.
Qed.

Lemma public_wait_spec (prompt : list regex) (flush : bool)
  (attempt : M (nat * MatchObject)) :
  (forall s s' r,
      attempt s = (s', r) ->
      settings_kept s s' /\
      exists used, incoming s = (used ++ incoming s')%list /\
                   wait_post prompt flush s used s' r) ->
  forall s s' r,
    retry (S (length (incoming s))) attempt s = (s', r) ->
    settings_kept s s' /\
    exists used, incoming s = (used ++ incoming s')%list /\
                 public_post prompt flush s used s' r.
Proof.
  intros Hatt s s' r Hrun.
  destruct (@retry_spec prompt flush attempt Hatt _ s
              (Nat.lt_succ_diag_r (length (incoming s))))
    as (s0 & used0 & _ & Hret & Hno & K0 & Hu0 & Hb0 & Ht0 & Hr0).
  rewrite Hret in Hrun. rewrite Hrun in Hno. cbn in Hno.
  destruct (Hatt _ _ _ Hrun) as (K & used & Hused & Hpost).
  split; [eapply settings_kept_trans; eassumption | ].
  exists (used0 ++ used)%list.
  split; [rewrite Hu0, Hused, app_assoc; reflexivity | ].
  unfold wait_post in Hpost. unfold public_post.
  rewrite Hb0, append_assoc, <- joined_app in Hpost.
  rewrite Ht0, <- app_assoc, <- received_app in Hpost.
  rewrite Hr0 in Hpost.
  destruct r as [[i m]|e|]; [ | destruct e | ]; try exact Hpost;
    try discriminate; intuition.
Qed.

Lemma waitfor_spec (prompt : prompt_arg) (s s' : Transport)
  (r : outcome (nat * MatchObject)) :
  waitfor prompt s = (s', r) ->
  settings_kept s s' /\
  exists used, incoming s = (used ++ incoming s')%list /\
               public_post (to_regexs prompt) false s used s' r.
Proof. apply public_wait_spec. apply _waitfor_spec. Qed.

Lemma expect_spec (prompt : prompt_arg) (s s' : Transport)
  (r : outcome (nat * MatchObject)) :
  expect prompt s = (s', r) ->
  settings_kept s s' /\
  exists used, incoming s = (used ++ incoming s')%list /\
               public_post (to_regexs prompt) true s used s' r.
Proof. apply public_wait_spec. apply _expect_spec. Qed.

(** The scan for error prompts gets through every line: [match] is
    [None] when it is looked at. *)
Lemma check_lines_returns (lines : list string) (s : Transport) :
  check_lines lines s = (s, Return tt).
Proof.
  induction lines as [|line rest IH]; [reflexivity | ].
  cbn [check_lines]. plumbing. exact IH.
Qed.

(** [expect_prompt] is [expect] on the prompt, a line of debug output,
    and [None]. *)
Lemma expect_prompt_spec (s s' : Transport) (r : outcome value) :
  expect_prompt s = (s', r) ->
  exists s1 r1,
    expect (Many (get_prompt s)) s = (s1, r1) /\
    match r1 with
    | Return _ => r = Return VNone /\ exists err, s' = set_stderr err s1
    | Raise e => r = Raise e /\ s' = s1
    | OutOfFuel => False
    end.
Proof.
  unfold expect_prompt. plumbing.
  destruct (expect (Many (get_prompt s)) s) as [s1 r1] eqn:Hrun.
  intros Heq. exists s1, r1. split; [reflexivity | ].
  destruct (expect_spec _ _ Hrun) as (_ & used & _ & Hpost).
  destruct r1 as [[i m]|e|]; cbn in Hpost.
  - destruct Hpost as (_ & Hresp & _). rewrite Hresp in Heq.
    match type of Heq with
    | context [_dbg ?l ?msg s1] =>
        destruct (_dbg_cases l msg s1) as (err & Hdbg & _)
    end.
    rewrite Hdbg in Heq. cbn in Heq. rewrite check_lines_returns in Heq.
    inversion Heq; subst. split; [reflexivity | ]. now exists err.
  - inversion Heq; subst. auto.
  - destruct Hpost.
Qed.

(** No run of [expect_prompt] ends in [InvalidCommandException]. *)
Lemma expect_prompt_never_invalid_command (s : Transport) :
  is_invalid_command (snd (expect_prompt s)) = false.
Proof.
  destruct (expect_prompt s) as [s' r] eqn:Hrun.
  destruct (expect_prompt_spec _ Hrun) as (s1 & r1 & Hexp & Hr1).
  destruct (expect_spec _ _ Hexp) as (_ & used & _ & Hpost).
  destruct r1 as [[i m]|e|].
  - destruct Hr1 as (-> & _). reflexivity.
  - destruct Hr1 as (-> & _). destruct e; cbn in *; auto; contradiction.
  - destruct Hr1.
Qed.

Lemma execute_never_invalid_command (command : string) (s : Transport) :
  is_invalid_command (snd (execute command s)) = false.
Proof.
  unfold execute, send. plumbing.
  match goal with
  | |- context [expect_prompt ?t] =>
      pose proof (expect_prompt_never_invalid_command t) as H;
      destruct (expect_prompt t) as [s' r]
  end.
  destruct r as [v|e|]; auto.
Qed.

(** C4, as the code has it: [execute(command)] sends the command
    followed by a carriage return and waits for the prompt; when it
    returns, it returns [None], the text through the end of the prompt
    has left the buffer and is the [response] attribute, and nothing
    else was sent. *)
Theorem C4_execute_returns_None (command : string) (s s' : Transport)
  (v : value) :
  execute command s = (s', Return v) ->
  v = VNone /\
  exists used i m,
    let all := buffer s ++ joined used in
    incoming s = (used ++ incoming s')%list /\
    trace s' = (trace s ++ Send (command ++ CR) :: received used)%list /\
    first_match (get_prompt s) all = Some (i, m) /\
    response s' = Some (take (m_end m) all) /\
    buffer s' = drop (m_end m) all.
Proof.
  unfold execute, send. plumbing.
  set (s0 := set_trace (trace s ++ [Send (command ++ CR)]) s).
  destruct (expect_prompt s0) as [s1 r1] eqn:Hrun. intros Heq.
  destruct (expect_prompt_spec _ Hrun) as (s2 & r2 & Hexp & Hr2).
  destruct (expect_spec _ _ Hexp) as (_ & used & Hused & Hpost).
  destruct r2 as [[i m]|e|].
  - destruct Hr2 as (-> & err & ->). inversion Heq; subst.
    split; [reflexivity | ]. exists used, i, m.
    cbn in Hpost. destruct Hpost as (Hhit & Hresp & Hbuf & Htr).
    cbn. repeat split; auto.
    rewrite Htr. cbn. rewrite <- app_assoc. reflexivity.
  - destruct Hr2 as (-> & _). inversion Heq.
  - destruct Hr2.
Qed.

(** *** [DriverReplacedException] stays inside *)

Lemma ndr_ret {A} (a : A) : never_driver_replaced (ret a).
Proof. intros s; reflexivity. Qed.

Lemma ndr_raise {A} (e : exn) :
  is_driver_replaced (@Raise A e) = false -> never_driver_replaced (@raise _ A e).
Proof. intros H s; exact H. Qed.

Lemma ndr_gets {A} (f : Transport -> A) : never_driver_replaced (gets f).
Proof. intros s; reflexivity. Qed.

Lemma ndr_modify (f : Transport -> Transport) : never_driver_replaced (modify f).
Proof. intros s; reflexivity. Qed.

Lemma ndr_bind {A B} (m : M A) (k : A -> M B) :
  never_driver_replaced m -> (forall a, never_driver_replaced (k a)) ->
  never_driver_replaced (bind m k).
Proof.
  intros Hm Hk s. unfold bind. specialize (Hm s).
  destruct (m s) as [s' [a|e|]]; cbn in *; auto. apply Hk.
Qed.

Lemma ndr_try_except {A} (m : M A) (h : exn -> option (M A)) :
  h DriverReplacedException <> None ->
  (forall e k, h e = Some k -> never_driver_replaced k) ->
  never_driver_replaced (try_except m h).
Proof.
  intros Hdr Hh s. unfold try_except.
  destruct (m s) as [s' [a|e|]]; cbn; auto.
  destruct (h e) as [k|] eqn:Hk.
  - apply (Hh _ _ Hk).
  - cbn. destruct e; auto. congruence.
Qed.

Lemma ndr_dbg level msg : never_driver_replaced (_dbg level msg).
Proof.
  intros s. destruct (_dbg_cases level msg s) as (err & -> & _). reflexivity.
Qed.

Lemma ndr_send data : never_driver_replaced (send data).
Proof. intros s; reflexivity. Qed.

Lemma ndr_public_wait prompt flush s s' r used :
  public_post prompt flush s used s' r -> is_driver_replaced r = false.
Proof.
  unfold public_post. destruct r as [[i m]|e|]; auto. destruct e; tauto.
Qed.

Lemma ndr_waitfor prompt : never_driver_replaced (waitfor prompt).
Proof.
  intros s. destruct (waitfor prompt s) as [s' r] eqn:Hrun.
  destruct (waitfor_spec _ _ Hrun) as (_ & used & _ & Hpost).
  eapply ndr_public_wait; eassumption.
Qed.

Lemma ndr_expect prompt : never_driver_replaced (expect prompt).
Proof.
  intros s. destruct (expect prompt s) as [s' r] eqn:Hrun.
  destruct (expect_spec _ _ Hrun) as (_ & used & _ & Hpost).
  eapply ndr_public_wait; eassumption.
Qed.

Lemma ndr_expect_prompt : never_driver_replaced expect_prompt.
Proof.
  intros s. destruct (expect_prompt s) as [s' r] eqn:Hrun.
  destruct (expect_prompt_spec _ Hrun) as (s1 & r1 & Hexp & Hr1).
  pose proof (ndr_expect (Many (get_prompt s)) s) as Hno.
  rewrite Hexp in Hno. cbn in *.
  destruct r1 as [[i m]|e|]; [ | | destruct Hr1]; destruct Hr1 as (-> & _); auto.
Qed.

Create HintDb ndr.
#[local] Hint Resolve ndr_ret ndr_gets ndr_modify ndr_dbg ndr_send ndr_expect
  ndr_expect_prompt ndr_waitfor : ndr.

(** Going through a method statement by statement. *)
Ltac ndr_step :=
  first [ solve [auto with ndr]
        | apply ndr_raise; reflexivity
        | apply ndr_bind; [ | intros ? ] ].

Lemma ndr_dispatch user password pm index m :
  never_driver_replaced (dispatch user password pm index m).
Proof.
  unfold dispatch, py_group, py_int, _otp_cb.
  destruct (nth_error pm index) as [[[] prompt]|]; repeat ndr_step.
  destruct (group m 1); repeat ndr_step.
  destruct (to_Z _); repeat ndr_step.
  destruct (group m 2); repeat ndr_step.
Qed.

Lemma ndr_race user password : never_driver_replaced (race user password).
Proof.
  unfold race.
  apply ndr_bind; [auto with ndr | intros pm].
  apply ndr_bind; [auto with ndr | intros pl].
  apply ndr_bind.
  - apply ndr_try_except; [discriminate | ].
    intros e k Hk. destruct e; inversion Hk; subst; repeat ndr_step.
  - intros [[index m]|]; [apply ndr_dispatch | apply ndr_ret].
Qed.

Lemma ndr_app_authenticate_loop fuel user password :
  never_driver_replaced (_app_authenticate_loop fuel user password).
Proof.
  induction fuel as [|fuel IH]; [intros s; reflexivity | ].
  cbn [_app_authenticate_loop]. apply ndr_bind; [apply ndr_race | ].
  intros [|]; [exact IH | apply ndr_ret].
Qed.

Lemma ndr_app_authenticate fuel user password flush :
  never_driver_replaced (_app_authenticate fuel user password flush).
Proof.
  unfold _app_authenticate.
  apply ndr_bind; [apply ndr_app_authenticate_loop | intros _].
  destruct flush; cbv beta iota; repeat ndr_step.
Qed.

Lemma set_response_same (s : Transport) (text : option string) :
  response s = text -> set_response text s = s.
Proof. intros <-. destruct s; reflexivity. Qed.

(** One turn of the race, by what its wait came to. *)
Lemma race_after_wait (user password : string) (s s1 : Transport)
  (r : outcome (nat * MatchObject)) :
  _waitfor (Many (prompt_list s)) s = (s1, r) ->
  match r with
  | Return (index, m) =>
      race user password s = dispatch user password (prompt_map s) index m s1
  | Raise (TimeoutException msg) =>
      let shown := match response s1 with Some text => text | None => "" end in
      race user password s
      = (set_response (Some shown) s1,
         Raise (TimeoutException ("Buffer: " ++ repr shown))) /\
      response s1 = response s /\
      incoming s1 = [] /\
      buffer s1 = buffer s ++ joined (incoming s) /\
      msg = buffer s1
  | Raise DriverReplacedException =>
      exists err, race user password s = (set_stderr err s1, Return Continue)
  | Raise ExpectCancelledException =>
      exists err, race user password s
                  = (set_stderr err s1, Raise ExpectCancelledException)
  | Raise EOFError =>
      exists err, race user password s = (set_stderr err s1, Raise EOFError)
  | Raise e => race user password s = (s1, Raise e)
  | OutOfFuel => False
  end.
Proof.
  intros Hrun.
  destruct (_waitfor_spec _ _ Hrun) as (_ & used & Hused & Hpost).
  unfold race. plumbing. rewrite Hrun. clear Hrun.
  destruct r as [[index m]|e|]; [reflexivity | | exact Hpost].
  destruct e; cbn in Hpost; try contradiction; cbn.
  - destruct Hpost as (Hin & Hbuf & Hresp & Hmsg & _).
    rewrite Hin, app_nil_r in Hused. subst used.
    split; [ | rewrite Hbuf; auto].
    destruct (response s1) as [text|] eqn:Hshown; cbn; rewrite ?Hshown.
    + rewrite (set_response_same _ Hshown). reflexivity.
    + reflexivity.
  - match goal with
    | |- context [_dbg ?l ?msg s1] =>
        destruct (_dbg_cases l msg s1) as (err & -> & _)
    end.
    exists err. reflexivity.
  - match goal with
    | |- context [_dbg ?l ?msg s1] =>
        destruct (_dbg_cases l msg s1) as (err & -> & _)
    end.
    exists err. reflexivity.
  - match goal with
    | |- context [_dbg ?l ?msg s1] =>
        destruct (_dbg_cases l msg s1) as (err & -> & _)
    end.
    exists err. reflexivity.
  - reflexivity.
Qed.

Lemma public_wait_total prompt flush s s' r used :
  public_post prompt flush s used s' r -> is_out_of_fuel r = false.
Proof.
  unfold public_post. destruct r as [[i m]|e|]; auto. tauto.
Qed.

(** *** Which pattern won *)

Lemma first_match_from_sound (prompt : list regex) (buf : string) :
  forall k i m,
    first_match_from k prompt buf = Some (i, m) ->
    exists p, k <= i /\ nth_error prompt (i - k) = Some p /\
              re_search p buf = Some m.
Proof.
  induction prompt as [|q rest IH]; intros k i m H; [discriminate | ].
  cbn in H. destruct (re_search q buf) as [m'|] eqn:Hq.
  - inversion H; subst. exists q. rewrite Nat.sub_diag. auto.
  - destruct (IH _ _ _ H) as (p & Hle & Hnth & Hp).
    exists p. split; [lia | ]. split; [ | exact Hp].
    replace (i - k) with (S (i - S k)) by lia. exact Hnth.
Qed.

Lemma first_match_sound (prompt : list regex) (buf : string) i m :
  first_match prompt buf = Some (i, m) ->
  exists p, nth_error prompt i = Some p /\ re_search p buf = Some m.
Proof.
  intros H. destruct (first_match_from_sound _ _ _ H) as (p & _ & Hnth & Hp).
  rewrite Nat.sub_0_r in Hnth. eauto.
Qed.

Lemma first_match_from_complete (prompt : list regex) (buf : string)
  (p : regex) (m : MatchObject) :
  In p prompt -> re_search p buf = Some m ->
  forall k, exists i m', first_match_from k prompt buf = Some (i, m').
Proof.
  intros Hin Hp. induction prompt as [|q rest IH]; [destruct Hin | ].
  intros k. cbn. destruct (re_search q buf) as [m'|] eqn:Hq; [eauto | ].
  destruct Hin as [-> | Hin]; [congruence | ]. apply IH, Hin.
Qed.

Lemma first_match_complete (prompt : list regex) (buf : string)
  (p : regex) (m : MatchObject) :
  In p prompt -> re_search p buf = Some m ->
  exists i m', first_match prompt buf = Some (i, m').
Proof. intros Hin Hp. eapply first_match_from_complete; eassumption. Qed.

Lemma first_match_single (p : regex) (buf : string) (m : MatchObject) :
  re_search p buf = Some m -> first_match [p] buf = Some (0, m).
Proof. intros H. unfold first_match. cbn. now rewrite H. Qed.

Lemma prompt_list_nth (s : Transport) (index : nat) (sec : section) (p : regex) :
  nth_error (prompt_map s) index = Some (sec, p) ->
  nth_error (prompt_list s) index = Some p.
Proof.
  intros H. unfold prompt_list. rewrite nth_error_map, H. reflexivity.
Qed.

Lemma prompt_map_sections (s : Transport) (sec : section) (p : regex) :
  In (sec, p) (prompt_map s) ->
  match sec with
  | login_error_section => In p (get_login_error_prompt s)
  | username_section => In p (get_username_prompt s)
  | skey_section => p = _skey_re
  | password_section => In p (get_password_prompt s)
  | cli_section => In p (get_prompt s)
  end.
Proof.
  unfold prompt_map, prompts. cbn [flat_map fst snd]. rewrite app_nil_r.
  rewrite !in_app_iff, !in_map_iff. cbn [map In].
  intros H.
  repeat match type of H with
         | _ \/ _ => destruct H as [H | H]
         | exists _, _ => destruct H as (q & H & Hin)
         | False => destruct H
         end;
    inversion H; subst; auto.
  destruct Hin as [Hin | []]. congruence.
Qed.

(** The prompts depend on the settings and on the driver only. *)
Lemma prompt_map_kept (s s' : Transport) :
  settings_kept s s' -> get_driver s' = get_driver s ->
  prompt_map s' = prompt_map s /\ prompt_list s' = prompt_list s /\
  get_prompt s' = get_prompt s /\
  get_password_prompt s' = get_password_prompt s.
Proof.
  intros [] Hd.
  unfold prompt_list, prompt_map, prompts, get_login_error_prompt,
    get_username_prompt, get_password_prompt, get_prompt.
  rewrite Hd. repeat split; congruence.
Qed.

(** [expect] on a buffer in which the pattern is found already: the
    text through the end of the match leaves the buffer at once. *)
Lemma expect_immediate (prompt : prompt_arg) (s : Transport) i m :
  first_match (to_regexs prompt) (buffer s) = Some (i, m) ->
  expect prompt s
  = (set_os_guesser (guesser_response_received (os_guesser s))
       (set_buffer (drop (m_end m) (buffer s))
          (set_response (Some (take (m_end m) (buffer s))) s)),
     Return (i, m)).
Proof.
  intros H. unfold expect. cbn [retry].
  unfold try_except, _expect, _domatch, response_received, matched.
  plumbing. rewrite H. reflexivity.
Qed.

(** A line of debug output changes [stderr] at most. *)
Ltac dbg_step err :=
  match goal with
  | |- context [_dbg ?l ?msg ?st] =>
      let H := fresh "Hdbg" in
      destruct (_dbg_cases l msg st) as (err & H & _); rewrite H; clear H
  end.

Ltac dbg_in H err :=
  match type of H with
  | context [_dbg ?l ?msg ?st] =>
      let E := fresh "Hdbg" in
      destruct (_dbg_cases l msg st) as (err & E & _); rewrite E in H; clear E
  end.

(** The wait of the race returned: its match is in the buffer, found by
    the pattern at the index returned. *)
Lemma race_wait_returns (s s1 : Transport) (index : nat) (m : MatchObject)
  (sec : section) (p : regex) :
  _waitfor (Many (prompt_list s)) s = (s1, Return (index, m)) ->
  nth_error (prompt_map s) index = Some (sec, p) ->
  first_match (prompt_list s1) (buffer s1) = Some (index, m) /\
  prompt_map s1 = prompt_map s /\
  re_search p (buffer s1) = Some m /\
  get_driver s1 = get_driver s /\
  settings_kept s s1.
Proof.
  intros Hrun Hp.
  destruct (_waitfor_spec _ _ Hrun) as (K & used & _ & Hpost).
  unfold wait_post in Hpost. cbv beta iota zeta in Hpost.
  cbn [to_regexs] in Hpost.
  destruct Hpost as (Hhit & _ & Hbuf & _ & Hd & _).
  rewrite <- Hbuf in Hhit.
  destruct (prompt_map_kept K Hd) as (Hpm & Hpl & _).
  rewrite Hpl.
  split; [exact Hhit | split; [exact Hpm | split; [ | split; [exact Hd | exact K]]]].
  destruct (first_match_sound _ _ Hhit) as (q & Hq & Hsearch).
  rewrite (prompt_list_nth _ _ Hp) in Hq. congruence.
Qed.

(** Running a method one statement at a time. *)
Lemma bind_eq {A B} (m : M A) (k : A -> M B) (s s' : Transport) (a : A) :
  m s = (s', Return a) -> bind m k s = k a s'.
Proof. intros H. unfold bind. rewrite H. reflexivity. Qed.

Lemma bind_raise {A B} (m : M A) (k : A -> M B) (s s' : Transport) (e : exn) :
  m s = (s', Raise e) -> bind m k s = (s', Raise e).
Proof. intros H. unfold bind. rewrite H. reflexivity. Qed.

Lemma modify_eq (f : Transport -> Transport) (s : Transport) :
  modify f s = (f s, Return tt).
Proof. reflexivity. Qed.

Lemma gets_eq {A} (f : Transport -> A) (s : Transport) :
  gets f s = (s, Return (f s)).
Proof. reflexivity. Qed.

Lemma send_eq (data : string) (s : Transport) :
  send data s = (set_trace (trace s ++ [Send data]) s, Return tt).
Proof. reflexivity. Qed.

Lemma _otp_cb_eq (seq : Z) (seed : string) (s : Transport) :
  _otp_cb seq seed s
  = (set_trace (trace s ++ [OtpRequested seq seed]) s, Return tt).
Proof. reflexivity. Qed.

Tactic Notation "run_step" open_constr(H) :=
  rewrite (@bind_eq _ _ _ _ _ _ _ H).
Tactic Notation "run_step_in" open_constr(H) hyp(H') :=
  rewrite (@bind_eq _ _ _ _ _ _ _ H) in H'.

Ltac run_dbg err :=
  match goal with
  | |- context [bind (_dbg ?l ?msg) ?k ?st] =>
      let H := fresh "Hdbg" in
      destruct (_dbg_cases l msg st) as (err & H & _); run_step H; clear H
  end.

Ltac run_dbg_in H' err :=
  match type of H' with
  | context [bind (_dbg ?l ?msg) ?k ?st] =>
      let H := fresh "Hdbg" in
      destruct (_dbg_cases l msg st) as (err & H & _); run_step_in H H';
      clear H
  end.

Lemma py_group_eq (m : MatchObject) (n : nat) (g : string) (s : Transport) :
  group m n = Some g -> py_group m n s = (s, Return g).
Proof. intros H. unfold py_group. rewrite H. reflexivity. Qed.

Lemma py_int_eq (text : string) (z : Z) (s : Transport) :
  to_Z text = Some z -> py_int text s = (s, Return z).
Proof. intros H. unfold py_int. rewrite H. reflexivity. Qed.

(** The s/key branch of [dispatch], up to the wait for the password
    prompt. *)
Lemma dispatch_skey (user password : string) (pm : list (section * regex))
  (index : nat) (m : MatchObject) (prompt : regex) (g1 seed : string) (seq : Z)
  (s1 : Transport) :
  nth_error pm index = Some (skey_section, prompt) ->
  re_search prompt (buffer s1) = Some m ->
  group m 1 = Some g1 -> to_Z g1 = Some seq -> group m 2 = Some seed ->
  exists s2,
    dispatch user password pm index m s1
    = (expect (Many (get_password_prompt s2)) ;;
       send (otp password seed seq ++ CR) ;;
       _dbg 1 "Password sent." ;;
       ret Continue) s2 /\
    buffer s2 = drop (m_end m) (buffer s1) /\
    incoming s2 = incoming s1 /\
    trace s2 = (trace s1 ++ [OtpRequested seq seed])%list.
Proof.
  intros Hp Hsearch Hg1 Hseq Hg2.
  unfold dispatch. rewrite Hp.
  destruct (_dbg_cases 1 "S/Key prompt received." s1) as (err1 & Hd1 & _).
  run_step Hd1.
  run_step (@expect_immediate (One prompt) (set_stderr err1 s1) 0 m
              (@first_match_single prompt _ _ Hsearch)).
  run_step (@py_group_eq m 1 g1 _ Hg1).
  run_step (@py_int_eq g1 seq _ Hseq).
  run_step (@py_group_eq m 2 seed _ Hg2).
  run_step (_otp_cb_eq seq seed _).
  run_dbg err2.
  run_step (gets_eq get_password_prompt _).
  eexists. split; [reflexivity | ]. cbn. auto.
Qed.

(** C5: when the s/key section wins the race, the challenge prompt is
    consumed from the buffer, the sequence number and the seed are read
    from groups 1 and 2 of the match and announced to the listeners, the
    password prompt is then waited for and consumed, and only then is
    [otp(password, seed, seq)] sent, followed by a carriage return; the
    loop then goes round again.  If the wait for the password prompt
    fails, the race fails with it, where that wait left the connection. *)
Theorem C5_skey_challenge_is_answered
  (user password : string) (s s1 : Transport) (index : nat) (m : MatchObject)
  (prompt : regex) (g1 seed : string) (seq : Z) :
  _waitfor (Many (prompt_list s)) s = (s1, Return (index, m)) ->
  nth_error (prompt_map s) index = Some (skey_section, prompt) ->
  group m 1 = Some g1 -> to_Z g1 = Some seq -> group m 2 = Some seed ->
  exists s2,
    prompt = _skey_re /\
    re_search _skey_re (buffer s1) = Some m /\
    buffer s2 = drop (m_end m) (buffer s1) /\
    incoming s2 = incoming s1 /\
    trace s2 = (trace s1 ++ [OtpRequested seq seed])%list /\
    forall s3 r3,
      expect (Many (get_password_prompt s2)) s2 = (s3, r3) ->
      match r3 with
      | Return _ =>
          exists err,
            let s4 := set_stderr err
                        (set_trace
                           (trace s3 ++ [Send (otp password seed seq ++ CR)])
                           s3) in
            race user password s = (s4, Return Continue) /\
            forall fuel,
              _app_authenticate_loop (S fuel) user password s
              = _app_authenticate_loop fuel user password s4
      | Raise e => race user password s = (s3, Raise e)
      | OutOfFuel => False
      end.
Proof.
  intros Hrun Hp Hg1 Hseq Hg2.
  destruct (race_wait_returns _ Hrun Hp) as (_ & _ & Hsearch & _ & _).
  assert (Hskey : prompt = _skey_re).
  { apply (prompt_map_sections s skey_section).
    eapply nth_error_In; exact Hp. }
  pose proof (race_after_wait user password _ Hrun) as Hrace.
  cbv beta iota in Hrace.
  destruct (@dispatch_skey user password _ _ _ _ _ _ _ _ Hp Hsearch Hg1 Hseq Hg2)
    as (s2 & Hdisp & Hbuf & Hin & Htr).
  rewrite Hdisp in Hrace. clear Hdisp. subst prompt.
  exists s2. repeat (split; [assumption || reflexivity | ]).
  intros s3 r3 Hexp.
  destruct (expect_spec _ _ Hexp) as (_ & used & _ & Hpost).
  destruct r3 as [[i3 m3]|e|]; [ | | exact Hpost].
  - run_step_in Hexp Hrace.
    run_step_in (send_eq (otp password seed seq ++ CR) _) Hrace.
    run_dbg_in Hrace err3.
    exists err3. cbv zeta. split; [exact Hrace | ].
    intros fuel. cbn [_app_authenticate_loop].
    run_step Hrace. reflexivity.
  - rewrite (@bind_raise _ _ _ _ _ _ _ Hexp) in Hrace. exact Hrace.
Qed.

(** *** What a timeout shows *)















(** The patterns of a turn of the race are what the five getters return
    at the connection as it is when the turn begins. *)
Lemma prompt_list_eq (s : Transport) :
  prompt_list s
  = (get_login_error_prompt s ++ get_username_prompt s ++ [_skey_re]
     ++ get_password_prompt s ++ get_prompt s)%list.
Proof.
  unfold prompt_list, prompt_map, prompts. cbn [flat_map fst snd].
  rewrite !map_app, !map_map, app_nil_r. cbn [snd map].
  rewrite !map_id. reflexivity.
Qed.

(** C3, as amended: [DriverReplacedException] never reaches the caller
    of [waitfor], of [expect] or of the prompt race.  [waitfor] and
    [expect] make the same attempt again, with the patterns the caller
    passed, for as long as it ends in that exception, and what they
    come to is what the first other attempt came to, whatever it is;
    they always come to something, and a match they return was found by
    the pattern of the caller's list at the index returned.  In the
    race the exception makes the loop go round again, with the patterns
    that the five getters return at the connection as the replacement
    left it; a timeout, a cancellation, the end of the stream and a
    login error all reach the caller. *)
Theorem C3_driver_replaced_is_absorbed (prompt : prompt_arg) (s : Transport) :
  (exists s0,
      Retried (_waitfor prompt) s s0 /\
      waitfor prompt s = _waitfor prompt s0 /\
      is_driver_replaced (snd (waitfor prompt s)) = false /\
      is_out_of_fuel (snd (waitfor prompt s)) = false /\
      forall s' i m,
        waitfor prompt s = (s', Return (i, m)) ->
        exists used p,
          incoming s = (used ++ incoming s')%list /\
          nth_error (to_regexs prompt) i = Some p /\
          re_search p (buffer s ++ joined used) = Some m) /\
  (exists s0,
      Retried (_expect prompt) s s0 /\
      expect prompt s = _expect prompt s0 /\
      is_driver_replaced (snd (expect prompt s)) = false /\
      is_out_of_fuel (snd (expect prompt s)) = false /\
      forall s' i m,
        expect prompt s = (s', Return (i, m)) ->
        exists used p,
          incoming s = (used ++ incoming s')%list /\
          nth_error (to_regexs prompt) i = Some p /\
          re_search p (buffer s ++ joined used) = Some m) /\
  (forall fuel user password flush,
      is_driver_replaced
        (snd (_app_authenticate fuel user password flush s)) = false) /\
  (forall user password,
      match _waitfor (Many (prompt_list s)) s with
      | (s1, Raise DriverReplacedException) =>
          exists err,
            race user password s = (set_stderr err s1, Return Continue) /\
            (forall fuel,
                _app_authenticate_loop (S fuel) user password s
                = _app_authenticate_loop fuel user password
                    (set_stderr err s1)) /\
            prompt_list (set_stderr err s1)
            = (get_login_error_prompt s1 ++ get_username_prompt s1
               ++ [_skey_re] ++ get_password_prompt s1 ++ get_prompt s1)%list
      | (s1, Raise ExpectCancelledException) =>
          forall fuel flush,
            snd (_app_authenticate (S fuel) user password flush s)
            = Raise ExpectCancelledException
      | (s1, Raise EOFError) =>
          forall fuel flush,
            snd (_app_authenticate (S fuel) user password flush s)
            = Raise EOFError
      | (s1, Raise (TimeoutException _)) =>
          forall fuel flush,
            snd (_app_authenticate (S fuel) user password flush s)
            = Raise (TimeoutException
                       ("Buffer: " ++ repr match response s1 with
                                           | Some text => text
                                           | None => ""
                                           end))
      | (s1, Raise e) =>
          forall fuel flush,
            snd (_app_authenticate (S fuel) user password flush s) = Raise e
      | (s1, Return (index, m)) =>
          forall p,
            nth_error (prompt_map s) index = Some (login_error_section, p) ->
            forall fuel flush,
              snd (_app_authenticate (S fuel) user password flush s)
              = Raise (LoginFailure "Login failed")
      | (s1, OutOfFuel) => False
      end).
Proof.
  split; [ | split; [ | split]].
  - destruct (@retry_spec (to_regexs prompt) false (_waitfor prompt)
                (_waitfor_spec prompt) _ s
                (Nat.lt_succ_diag_r (length (incoming s))))
      as (s0 & used0 & Hre & Hret & Hno & _).
    exists s0. unfold waitfor at 1 2. rewrite Hret.
    split; [exact Hre | ]. split; [reflexivity | ]. split; [exact Hno | ].
    split.
    + destruct (waitfor prompt s) as [s' r] eqn:Hrun.
      destruct (waitfor_spec _ _ Hrun) as (_ & used & _ & Hpost).
      eapply public_wait_total; eassumption.
    + intros s' i m Hrun.
      destruct (waitfor_spec _ _ Hrun) as (_ & used & Hused & Hpost).
      cbn in Hpost. destruct Hpost as (Hhit & _).
      destruct (first_match_sound _ _ Hhit) as (p & Hp & Hm).
      exists used, p. auto.
  - destruct (@retry_spec (to_regexs prompt) true (_expect prompt)
                (_expect_spec prompt) _ s
                (Nat.lt_succ_diag_r (length (incoming s))))
      as (s0 & used0 & Hre & Hret & Hno & _).
    exists s0. unfold expect at 1 2. rewrite Hret.
    split; [exact Hre | ]. split; [reflexivity | ]. split; [exact Hno | ].
    split.
    + destruct (expect prompt s) as [s' r] eqn:Hrun.
      destruct (expect_spec _ _ Hrun) as (_ & used & _ & Hpost).
      eapply public_wait_total; eassumption.
    + intros s' i m Hrun.
      destruct (expect_spec _ _ Hrun) as (_ & used & Hused & Hpost).
      cbn in Hpost. destruct Hpost as (Hhit & _).
      destruct (first_match_sound _ _ Hhit) as (p & Hp & Hm).
      exists used, p. auto.
  - intros fuel user password flush. apply ndr_app_authenticate.
  - intros user password.
    destruct (_waitfor (Many (prompt_list s)) s) as [s1 r] eqn:Hrun.
    pose proof (race_after_wait user password _ Hrun) as Hrace.
    assert (Hraise : forall s2 e,
               race user password s = (s2, Raise e) ->
               forall fuel flush,
                 snd (_app_authenticate (S fuel) user password flush s)
                 = Raise e).
    { intros s2 e He fuel flush. unfold _app_authenticate.
      cbn [_app_authenticate_loop]. unfold bind. rewrite He. reflexivity. }
    destruct r as [[index m]|e|]; [ | | exact Hrace].
    + intros p Hp. apply Hraise with (s2 := s1).
      rewrite Hrace. unfold dispatch. rewrite Hp. reflexivity.
    + destruct e; try (eapply Hraise; exact Hrace).
      * destruct Hrace as (Hrace & _). eapply Hraise; exact Hrace.
      * destruct Hrace as (err & Hrace). exists err.
        split; [exact Hrace | ].
        split; [ | exact (prompt_list_eq (set_stderr err s1))].
        intros fuel.
        cbn [_app_authenticate_loop]. unfold bind. rewrite Hrace. reflexivity.
      * destruct Hrace as (err & Hrace). eapply Hraise; exact Hrace.
      * destruct Hrace as (err & Hrace). eapply Hraise; exact Hrace.
Qed.


(** *** Leaving the race *)

Lemma nb_bind {A} (m : M A) (k : A -> M loop_ctl) :
  (forall a, never_breaks (k a)) -> never_breaks (bind m k).
Proof.
  intros Hk s s'. unfold bind.
  destruct (m s) as [s1 [a|e|]]; [apply Hk | discriminate | discriminate].
Qed.

Lemma nb_ret_continue : never_breaks (ret Continue).
Proof. intros s s'. discriminate. Qed.

Lemma nb_raise (e : exn) : never_breaks (raise e).
Proof. intros s s'. discriminate. Qed.

(** The race is left through the shell prompt only, and all that turn
    did after its wait was to write a line of debug output. *)
Lemma dispatch_breaks (user password : string) (pm : list (section * regex))
  (index : nat) (m : MatchObject) (s1 s2 : Transport) :
  dispatch user password pm index m s1 = (s2, Return Break) ->
  exists p err,
    nth_error pm index = Some (cli_section, p) /\ s2 = set_stderr err s1.
Proof.
  unfold dispatch.
  destruct (nth_error pm index) as [[[] p]|]; intros H;
    try (exfalso; revert H;
         solve [ repeat first [ apply nb_ret_continue | apply nb_raise
                              | apply nb_bind; intros ? ] ]).
  destruct (_dbg_cases 1 "Shell prompt received." s1) as (err & Hd & _).
  rewrite (@bind_eq _ _ _ _ _ _ _ Hd) in H. inversion H; subst. eauto.
Qed.

Lemma race_breaks (user password : string) (s s2 : Transport) :
  race user password s = (s2, Return Break) ->
  exists s1 index m p err,
    _waitfor (Many (prompt_list s)) s = (s1, Return (index, m)) /\
    nth_error (prompt_map s) index = Some (cli_section, p) /\
    s2 = set_stderr err s1.
Proof.
  intros Hrace.
  destruct (_waitfor (Many (prompt_list s)) s) as [s1 r] eqn:Hrun.
  pose proof (race_after_wait user password _ Hrun) as H.
  destruct r as [[index m]|e|]; [ | | destruct H].
  - rewrite H in Hrace.
    destruct (dispatch_breaks _ _ _ _ _ _ Hrace) as (p & err & Hp & ->).
    exists s1, index, m, p, err. auto.
  - exfalso.
    destruct e; cbv zeta in H;
      repeat match type of H with
             | _ /\ _ => destruct H as (H & _)
             | exists _, _ => destruct H as (? & H)
             end;
      rewrite H in Hrace; discriminate.
Qed.

Lemma stderr_only (s1 : Transport) (err : list string) :
  buffer (set_stderr err s1) = buffer s1 /\
  prompt_map (set_stderr err s1) = prompt_map s1 /\
  prompt_list (set_stderr err s1) = prompt_list s1 /\
  get_prompt (set_stderr err s1) = get_prompt s1.
Proof. repeat split. Qed.

(** When the loop of [_app_authenticate] returns, the shell prompt that
    ended the race is the winning match in the buffer still. *)
Lemma _app_authenticate_loop_returns (fuel : nat) (user password : string) :
  forall s s',
    _app_authenticate_loop fuel user password s = (s', Return tt) ->
    exists index m p,
      first_match (prompt_list s') (buffer s') = Some (index, m) /\
      nth_error (prompt_map s') index = Some (cli_section, p) /\
      In p (get_prompt s') /\
      re_search p (buffer s') = Some m.
Proof.
  induction fuel as [|fuel IH]; intros s s' Hrun; [discriminate | ].
  cbn [_app_authenticate_loop] in Hrun. unfold bind in Hrun.
  destruct (race user password s) as [s2 [[|]|e|]] eqn:Hrace;
    try discriminate.
  - eapply IH; eassumption.
  - inversion Hrun; subst s'. clear Hrun.
    destruct (race_breaks _ _ _ Hrace) as (s1 & index & m & p & err & Hw & Hp & ->).
    destruct (race_wait_returns _ Hw Hp) as (Hhit & Hpm & Hsearch & _ & _).
    destruct (stderr_only s1 err) as (-> & -> & -> & ->).
    rewrite Hpm. exists index, m, p. repeat split; auto.
    apply (prompt_map_sections s1 cli_section). rewrite Hpm.
    eapply nth_error_In; exact Hp.
Qed.

(** C7: with [flush = False], when [_app_authenticate] returns the shell
    prompt that ended the race has not been consumed: it is in the
    buffer and is what the prompts of the race find there first.  With
    [flush = True] the same is done and then [expect_prompt] is called
    once; it consumes a shell prompt that is in the buffer already. *)
Theorem C7_shell_prompt_stays_unless_flushed
  (fuel : nat) (user password : string) (s : Transport) :
  (forall s',
      _app_authenticate fuel user password false s = (s', Return tt) ->
      exists index m p,
        first_match (prompt_list s') (buffer s') = Some (index, m) /\
        nth_error (prompt_map s') index = Some (cli_section, p) /\
        In p (get_prompt s') /\
        re_search p (buffer s') = Some m) /\
  _app_authenticate fuel user password true s
  = (_app_authenticate fuel user password false ;;
     expect_prompt ;; ret tt) s /\
  (forall s'',
      _app_authenticate fuel user password true s = (s'', Return tt) ->
      exists s' i m,
        _app_authenticate fuel user password false s = (s', Return tt) /\
        first_match (get_prompt s') (buffer s') = Some (i, m) /\
        buffer s'' = drop (m_end m) (buffer s') /\
        incoming s'' = incoming s' /\
        trace s'' = trace s').
Proof.
  assert (Hfalse : forall s',
             _app_authenticate fuel user password false s = (s', Return tt) ->
             _app_authenticate_loop fuel user password s = (s', Return tt)).
  { unfold _app_authenticate, bind, ret. intros s'.
    destruct (_app_authenticate_loop fuel user password s) as [s1 [[]|e|]];
      intros H; inversion H; reflexivity. }
  assert (Heq : _app_authenticate fuel user password true s
                = (_app_authenticate fuel user password false ;;
                   expect_prompt ;; ret tt) s).
  { unfold _app_authenticate, bind, ret.
    destruct (_app_authenticate_loop fuel user password s) as [s1 [[]|e|]];
      reflexivity. }
  split; [ | split; [exact Heq | ]].
  - intros s' H. eapply _app_authenticate_loop_returns. apply Hfalse, H.
  - intros s'' H. rewrite Heq in H. unfold bind at 1 in H.
    destruct (_app_authenticate fuel user password false s)
      as [s' [[]|e|]] eqn:Hloop; try discriminate.
    destruct (_app_authenticate_loop_returns _ _ _ _ (Hfalse _ eq_refl))
      as (index & mm & p & _ & _ & Hin & Hsearch).
    destruct (first_match_complete _ _ _ Hin Hsearch) as (i & m & Hhit).
    pose proof (@expect_immediate (Many (get_prompt s')) s' i m Hhit) as Hexp.
    unfold bind in H.
    destruct (expect_prompt s') as [sx rx] eqn:Hprompt.
    destruct (expect_prompt_spec _ Hprompt) as (s1 & r1 & Hexp' & Hr1).
    rewrite Hexp in Hexp'. inversion Hexp'; subst s1 r1. clear Hexp'.
    destruct Hr1 as (-> & err & ->). inversion H; subst s''.
    exists s', i, m. repeat split; auto.
Qed.

(** The same through [app_authenticate] and [app_authorize], which
    resolve the account and set their flag around the race. *)
Lemma app_authenticate_leaves_shell_prompt
  (fuel : nat) (account : Account) (s s' : Transport) :
  app_authenticate fuel (Some account) false s = (s', Return tt) ->
  app_authenticated s' = true /\
  exists index m p,
    first_match (prompt_list s') (buffer s') = Some (index, m) /\
    nth_error (prompt_map s') index = Some (cli_section, p) /\
    re_search p (buffer s') = Some m.
Proof.
  unfold app_authenticate. intros H.
  rewrite (@bind_eq _ _ _ _ _ _ _
             (eq_refl : _get_account (Some account) s
                        = (set_last_account (Some account) s, Return account)))
    in H.
  run_dbg_in H err.
  unfold _app_authenticate in H. unfold bind in H.
  match type of H with
  | context [_app_authenticate_loop fuel ?u ?p ?st] =>
      destruct (_app_authenticate_loop fuel u p st) as [s1 [[]|e|]] eqn:Hloop
  end; try discriminate.
  cbn in H. inversion H; subst s'. clear H.
  destruct (_app_authenticate_loop_returns _ _ _ _ Hloop)
    as (index & m & p & Hhit & Hp & _ & Hsearch).
  split; [reflexivity | ]. exists index, m, p. auto.
Qed.

(** *** Protocol authentication and the login pipeline *)

(** C6: [authenticate(account, flush)] makes one call to the protocol
    hooks, by key when the account has a key and by password otherwise,
    sets [authenticated], and leaves the buffer, the pending input and
    the response alone; only with [flush] does it go on to wait for a
    prompt and consume it, through [expect_prompt]. *)
Theorem C6_authenticate_by_key_or_password
  (account : Account) (flush : bool) (s : Transport) :
  exists s1,
    authenticate (Some account) flush s
    = (if flush then (expect_prompt ;; ret tt) s1 else (s1, Return tt)) /\
    authenticated s1 = true /\
    last_account s1 = Some account /\
    trace s1
    = (trace s ++
       [match get_key account with
        | None =>
            ProtocolAuthenticate (get_name account) (get_password account)
        | Some key => ProtocolAuthenticateByKey (get_name account) key
        end])%list /\
    buffer s1 = buffer s /\ incoming s1 = incoming s /\
    response s1 = response s /\ cancel_requested s1 = cancel_requested s.
Proof.
  unfold authenticate.
  rewrite (@bind_eq _ _ _ _ _ _ _
             (eq_refl : _get_account (Some account) s
                        = (set_last_account (Some account) s, Return account))).
  destruct (get_key account) as [key|].
  - match goal with
    | |- context [_dbg 1 ?msg] =>
        destruct (_dbg_cases 1 msg (set_last_account (Some account) s))
          as (err & Hd & _)
    end.
    eexists. split.
    + unfold bind at 1 2. rewrite Hd.
      unfold _protocol_authenticate_by_key, modify. unfold bind at 1.
      destruct flush; reflexivity.
    + cbn. auto 10.
  - match goal with
    | |- context [_dbg 1 ?msg] =>
        destruct (_dbg_cases 1 msg (set_last_account (Some account) s))
          as (err & Hd & _)
    end.
    eexists. split.
    + unfold bind at 1 2. rewrite Hd.
      unfold _protocol_authenticate, modify. unfold bind at 1.
      destruct flush; reflexivity.
    + cbn. auto 10.
Qed.

(** Without an argument [authenticate] falls back on the last account;
    without that one either it raises before anything is done. *)
Lemma authenticate_last_account (flush : bool) (s : Transport) :
  authenticate None flush s
  = match last_account s with
    | Some account => authenticate (Some account) flush s
    | None => (s, Raise (TypeError "An account is required"))
    end.
Proof.
  unfold authenticate, bind, _get_account.
  destruct (last_account s) as [account|] eqn:Hlast; [ | reflexivity].
  assert (Hs : set_last_account (Some account) s = s).
  { destruct s; cbn in *. subst. reflexivity. }
  rewrite Hs. reflexivity.
Qed.

Context {P : Procedures}.

(** [authenticate] without [flush] always returns, having made its one
    call to a protocol hook. *)
Lemma authenticate_without_flush (account : Account) (s : Transport) :
  exists s1,
    authenticate (Some account) false s = (s1, Return tt) /\
    authenticated s1 = true /\
    trace s1
    = (trace s ++
       [match get_key account with
        | None =>
            ProtocolAuthenticate (get_name account) (get_password account)
        | Some key => ProtocolAuthenticateByKey (get_name account) key
        end])%list /\
    buffer s1 = buffer s /\ incoming s1 = incoming s.
Proof.
  unfold authenticate.
  rewrite (@bind_eq _ _ _ _ _ _ _
             (eq_refl : _get_account (Some account) s
                        = (set_last_account (Some account) s, Return account))).
  destruct (get_key account) as [key|];
    (match goal with
     | |- context [_dbg 1 ?msg] =>
         destruct (_dbg_cases 1 msg (set_last_account (Some account) s))
           as (err & Hd & _)
     end;
     eexists;
     split; [unfold bind at 1 2; rewrite Hd; reflexivity | cbn; auto]).
Qed.

(** [auto_app_authorize] hands over to the procedure of the driver in
    use, having recorded the call. *)
Lemma auto_app_authorize_delegates (account : Account) (flush : bool)
  (s : Transport) :
  exists s3,
    auto_app_authorize (Some account) flush s
    = auto_authorize (get_driver s) account flush s3 /\
    trace s3
    = (trace s ++ [AutoAuthorize (name (get_driver s)) account flush])%list /\
    buffer s3 = buffer s /\ incoming s3 = incoming s.
Proof.
  unfold auto_app_authorize.
  rewrite (@bind_eq _ _ _ _ _ _ _
             (eq_refl : _get_account (Some account) s
                        = (set_last_account (Some account) s, Return account))).
  run_dbg err.
  run_step (gets_eq get_driver _).
  run_step (modify_eq _ _).
  eexists. split; [reflexivity | cbn; auto].
Qed.

(** C2: [login(account, app_account, flush)] resolves the account
    (raising [TypeError] when there is none), takes [account] for an
    [app_account] that is [None], and then runs [authenticate(account,
    flush=False)], [app_authenticate(app_account, flush=False)] and
    [auto_app_authorize(app_account, flush=flush)], each one on the
    connection as the one before left it and only if that one
    returned.  On a login that returns, the protocol hook was called
    first, the race of [app_authenticate] then ran and left its shell
    prompt in the buffer, and the driver's procedure was called last,
    with [app_account] and [flush]. *)
Theorem C2_login_is_the_fixed_pipeline
  (fuel : nat) (account app_account : option Account) (flush : bool)
  (s : Transport) :
  login fuel account app_account flush s
  = match (match account with
           | Some a => Some a
           | None => last_account s
           end) with
    | None => (s, Raise (TypeError "An account is required"))
    | Some a =>
        let app := match app_account with
                   | Some b => b
                   | None => a
                   end in
        match authenticate (Some a) false (set_last_account (Some a) s) with
        | (s1, Return _) =>
            match app_authenticate fuel (Some app) false s1 with
            | (s2, Return _) => auto_app_authorize (Some app) flush s2
            | (s2, Raise e) => (s2, Raise e)
            | (s2, OutOfFuel) => (s2, OutOfFuel)
            end
        | (s1, Raise e) => (s1, Raise e)
        | (s1, OutOfFuel) => (s1, OutOfFuel)
        end
    end /\
  (forall a s',
      login fuel (Some a) app_account flush s = (s', Return tt) ->
      let app := match app_account with
                 | Some b => b
                 | None => a
                 end in
      exists s1 s2 s3,
        authenticate (Some a) false (set_last_account (Some a) s)
        = (s1, Return tt) /\
        trace s1
        = (trace s ++
           [match get_key a with
            | None => ProtocolAuthenticate (get_name a) (get_password a)
            | Some key => ProtocolAuthenticateByKey (get_name a) key
            end])%list /\
        authenticated s1 = true /\
        app_authenticate fuel (Some app) false s1 = (s2, Return tt) /\
        app_authenticated s2 = true /\
        (exists index m p,
            first_match (prompt_list s2) (buffer s2) = Some (index, m) /\
            nth_error (prompt_map s2) index = Some (cli_section, p)) /\
        trace s3
        = (trace s2 ++ [AutoAuthorize (name (get_driver s2)) app flush])%list /\
        buffer s3 = buffer s2 /\
        auto_authorize (get_driver s2) app flush s3 = (s', Return tt)).
Proof.
  split.
  - unfold login. unfold bind at 1. unfold _get_account at 1.
    destruct account as [a|]; [ | destruct (last_account s) as [a|]];
      reflexivity.
  - intros a s' Hrun. cbv zeta.
    set (app := match app_account with Some b => b | None => a end) in *.
    unfold login in Hrun.
    rewrite (@bind_eq _ _ _ _ _ _ _
               (eq_refl : _get_account (Some a) s
                          = (set_last_account (Some a) s, Return a))) in Hrun.
    destruct (authenticate_without_flush a (set_last_account (Some a) s))
      as (s1 & Hauth & Hflag & Htr & _).
    run_step_in Hauth Hrun.
    fold app in Hrun. unfold bind in Hrun.
    destruct (app_authenticate fuel (Some app) false s1)
      as [s2 [[]|e|]] eqn:Happ; try discriminate.
    destruct (app_authenticate_leaves_shell_prompt _ _ _ Happ)
      as (Happflag & index & m & p & Hhit & Hp & _).
    destruct (auto_app_authorize_delegates app flush s2)
      as (s3 & Hdel & Htr3 & Hbuf3 & _).
    rewrite Hdel in Hrun.
    exists s1, s2, s3.
    repeat (split; [first [assumption | reflexivity | eauto] | ]).
    exact Hrun.
Qed.

(** ** More about the class *)

(** *** Accounts *)

Lemma bind_same_start {A B} (m1 m2 : M A) (k : A -> M B) (s : Transport) :
  m1 s = m2 s -> bind m1 k s = bind m2 k s.
Proof. intros H. unfold bind. rewrite H. reflexivity. Qed.

(** X1: on a connection that remembers an account, each of the five
    entry points called without an account does what it does when it is
    passed the remembered one. *)
Theorem remembered_account_is_the_default
  (fuel : nat) (account : Account) (app_account : option Account)
  (flush : bool) (s : Transport) :
  last_account s = Some account ->
  authenticate None flush s = authenticate (Some account) flush s /\
  app_authenticate fuel None flush s
  = app_authenticate fuel (Some account) flush s /\
  app_authorize fuel None flush s
  = app_authorize fuel (Some account) flush s /\
  auto_app_authorize None flush s = auto_app_authorize (Some account) flush s /\
  login fuel None app_account flush s
  = login fuel (Some account) app_account flush s.
Proof.
  intros Hlast.
  assert (Hget : _get_account None s = _get_account (Some account) s).
  { unfold _get_account. rewrite Hlast. reflexivity. }
  unfold authenticate, app_authenticate, app_authorize, auto_app_authorize,
    login.
  repeat split; apply bind_same_start; exact Hget.
Qed.

(** X2: on a connection that remembers no account, each of the five
    entry points called without one raises [TypeError] before it has
    done anything: the connection is as it was. *)
Theorem missing_account_is_a_TypeError
  (fuel : nat) (app_account : option Account) (flush : bool) (s : Transport) :
  last_account s = None ->
  let refused := (s, @Raise unit (TypeError "An account is required")) in
  authenticate None flush s = refused /\
  app_authenticate fuel None flush s = refused /\
  app_authorize fuel None flush s = refused /\
  auto_app_authorize None flush s = refused /\
  login fuel None app_account flush s = refused.
Proof.
  intros Hlast. cbv zeta.
  assert (Hget : _get_account None s
                 = (s, Raise (TypeError "An account is required"))).
  { unfold _get_account. rewrite Hlast. reflexivity. }
  unfold authenticate, app_authenticate, app_authorize, auto_app_authorize,
    login.
  rewrite !(@bind_raise _ _ _ _ _ _ _ Hget).
  repeat split; reflexivity.
Qed.

(** *** Drivers *)

(** X3: [set_driver] followed by [get_driver].  A driver object, or the
    name of a driver in [driver_map], is what [get_driver] returns from
    then on; [None] makes it the guessed driver again; a name that is
    not in [driver_map], or an argument of another type, is refused with
    [TypeError] and the connection is as it was. *)
Theorem set_driver_then_get_driver (driver : driver_arg) (s : Transport) :
  match driver with
  | DriverNone =>
      snd (set_driver driver s) = Return tt /\
      get_driver (fst (set_driver driver s)) = auto_driver s
  | DriverObject d =>
      snd (set_driver driver s) = Return tt /\
      get_driver (fst (set_driver driver s)) = d
  | DriverName n =>
      match driver_map n with
      | Some d =>
          snd (set_driver driver s) = Return tt /\
          get_driver (fst (set_driver driver s)) = d
      | None =>
          set_driver driver s
          = (s, Raise (TypeError ("no such driver:" ++ repr n)))
      end
  | DriverOther =>
      fst (set_driver driver s) = s /\
      exists msg, snd (set_driver driver s) = Raise (TypeError msg)
  end.
Proof.
  destruct driver as [|n|d|]; cbn; auto.
  - destruct (driver_map n); cbn; auto.
  - split; [reflexivity | eauto].
Qed.

(** *** Received chunks *)

Lemma remove_cr_has_no_cr (text : string) :
  contains_char "013" (remove_cr text) = false.
Proof.
  induction text as [|c r IH]; [reflexivity | ].
  cbn [remove_cr]. destruct (Ascii.eqb c "013") eqn:E; [exact IH | ].
  cbn [contains_char]. rewrite Ascii.eqb_sym, E. exact IH.
Qed.

(** X4: whatever a received chunk is and whatever comes of it,
    [_receive_cb] writes it to stdout once, with every carriage return
    taken out, and the same text to the log file if one is open. *)
Theorem received_text_is_written_without_cr (data : string) (s : Transport) :
  let text := remove_cr (remove_cr_nul data) in
  stdout (fst (_receive_cb data s)) = (stdout s ++ [text])%list /\
  log (fst (_receive_cb data s))
  = match log s with
    | Some written => Some (written ++ [text])%list
    | None => None
    end /\
  contains_char "013" text = false.
Proof.
  cbv zeta. split; [ | split; [ | apply remove_cr_has_no_cr]];
    unfold _receive_cb, driver_map_getitem, emit_data_received,
      _driver_replaced_notify, cancel_expect, guess_os, _dbg; plumbing; cbn;
    destruct (log s) eqn:Hlog; cbn;
    repeat match goal with
           | |- context [driver_map ?k] => destruct (driver_map k); cbn
           | |- context [if ?b then _ else _] => destruct b; cbn
           end;
    rewrite ?Hlog; reflexivity.
Qed.

(** X5: with no driver pinned, a chunk that makes the guess resolve to
    another driver replaces the driver in use, sets [driver_replaced]
    and asks for the wait in progress to be cancelled; a chunk that
    leaves the driver as it is leaves [driver_replaced] alone, and the
    wait is cancelled only if a listener asks for it. *)
Theorem guessed_driver_is_replaced (data : string) (s : Transport) (d : Driver) :
  manual_driver s = None ->
  driver_map (guesser_get (guesser_data_received (os_guesser s)
                             (remove_cr_nul data)) "os") = Some d ->
  let s' := fst (_receive_cb data s) in
  snd (_receive_cb data s) = Return (remove_cr_nul data) /\
  get_driver s' = d /\
  driver_replaced s' = (driver_replaced s || driver_neq (auto_driver s) d)%bool /\
  cancel_requested s'
  = (cancel_requested s || driver_neq (auto_driver s) d
     || data_received_event s (remove_cr_nul data))%bool /\
  trace s' = (trace s ++ [DataReceived (remove_cr_nul data)])%list.
Proof.
  intros Hfree Hmap. cbv zeta.
  unfold _receive_cb, driver_map_getitem, emit_data_received,
    _driver_replaced_notify, cancel_expect, guess_os, _dbg, get_driver.
  plumbing. cbn.
  destruct (log s); cbn; rewrite ?Hfree, Hmap; cbn; rewrite ?Hfree;
    (destruct (driver_neq (auto_driver s) d); cbn;
     repeat match goal with
            | |- context [if ?b then _ else _] => destruct b; cbn
            end;
     rewrite ?Hfree, ?orb_true_r, ?orb_false_r; auto).
Qed.

(** X6: a chunk that makes the guess an operating system for which
    [driver_map] has no driver ends [_receive_cb] in [KeyError]: the
    guesser has seen the chunk by then, but the driver in use is as it
    was, no flag is touched and the listeners are not called. *)
Theorem unknown_guess_is_a_KeyError (data : string) (s : Transport) :
  let os := guesser_get (guesser_data_received (os_guesser s)
                           (remove_cr_nul data)) "os" in
  driver_map os = None ->
  let s' := fst (_receive_cb data s) in
  snd (_receive_cb data s) = Raise (KeyError os) /\
  os_guesser s' = guesser_data_received (os_guesser s) (remove_cr_nul data) /\
  auto_driver s' = auto_driver s /\
  driver_replaced s' = driver_replaced s /\
  cancel_requested s' = cancel_requested s /\
  trace s' = trace s.
Proof.
  cbv zeta. intros Hmap.
  unfold _receive_cb, driver_map_getitem, emit_data_received, guess_os.
  plumbing. cbn.
  destruct (log s); cbn; rewrite Hmap; cbn; auto 10.
Qed.

(** *** Prompt overrides *)

(** X7: a prompt setter followed by its getter.  A pattern, or a
    non-empty list of patterns, is what the getter returns afterwards;
    [None] gives the driver's patterns back; and a setter leaves the
    other four categories and the driver alone. *)
Theorem prompt_override_round_trip (arg : prompt_arg) (s : Transport) :
  to_regexs arg <> [] ->
  (get_username_prompt (fst (set_username_prompt (Some arg) s)) = to_regexs arg /\
   get_password_prompt (fst (set_password_prompt (Some arg) s)) = to_regexs arg /\
   get_prompt (fst (set_prompt (Some arg) s)) = to_regexs arg /\
   get_error_prompt (fst (set_error_prompt (Some arg) s)) = to_regexs arg /\
   get_login_error_prompt (fst (set_login_error_prompt (Some arg) s))
   = to_regexs arg) /\
  (get_username_prompt (fst (set_username_prompt None s))
   = user_re (get_driver s) /\
   get_password_prompt (fst (set_password_prompt None s))
   = password_re (get_driver s) /\
   get_prompt (fst (set_prompt None s)) = prompt_re (get_driver s) /\
   get_error_prompt (fst (set_error_prompt None s)) = error_re (get_driver s) /\
   get_login_error_prompt (fst (set_login_error_prompt None s))
   = login_error_re (get_driver s)) /\
  (let s' := fst (set_username_prompt (Some arg) s) in
   get_password_prompt s' = get_password_prompt s /\
   get_prompt s' = get_prompt s /\
   get_error_prompt s' = get_error_prompt s /\
   get_login_error_prompt s' = get_login_error_prompt s /\
   get_driver s' = get_driver s) /\
  (let s' := fst (set_password_prompt (Some arg) s) in
   get_username_prompt s' = get_username_prompt s /\
   get_prompt s' = get_prompt s /\
   get_error_prompt s' = get_error_prompt s /\
   get_login_error_prompt s' = get_login_error_prompt s /\
   get_driver s' = get_driver s) /\
  (let s' := fst (set_prompt (Some arg) s) in
   get_username_prompt s' = get_username_prompt s /\
   get_password_prompt s' = get_password_prompt s /\
   get_error_prompt s' = get_error_prompt s /\
   get_login_error_prompt s' = get_login_error_prompt s /\
   get_driver s' = get_driver s) /\
  (let s' := fst (set_error_prompt (Some arg) s) in
   get_username_prompt s' = get_username_prompt s /\
   get_password_prompt s' = get_password_prompt s /\
   get_prompt s' = get_prompt s /\
   get_login_error_prompt s' = get_login_error_prompt s /\
   get_driver s' = get_driver s) /\
  (let s' := fst (set_login_error_prompt (Some arg) s) in
   get_username_prompt s' = get_username_prompt s /\
   get_password_prompt s' = get_password_prompt s /\
   get_prompt s' = get_prompt s /\
   get_error_prompt s' = get_error_prompt s /\
   get_driver s' = get_driver s).
Proof.
  intros Hne.
  unfold get_username_prompt, get_password_prompt, get_prompt,
    get_error_prompt, get_login_error_prompt, get_driver.
  split; [ | split].
  - cbn. destruct (to_regexs arg); [congruence | ]. repeat split.
  - repeat split.
  - cbn. repeat split.
Qed.

(** *** The branches of the prompt race *)

Lemma first_match_from_app (l1 l2 : list regex) (buf : string) (p : regex)
  (m : MatchObject) :
  In p l1 -> re_search p buf = Some m ->
  forall k, exists i m' p',
    first_match_from k (l1 ++ l2) buf = Some (k + i, m') /\
    nth_error l1 i = Some p' /\ re_search p' buf = Some m'.
Proof.
  intros Hin Hp. induction l1 as [|q rest IH]; [destruct Hin | ].
  intros k. cbn [app first_match_from].
  destruct (re_search q buf) as [mq|] eqn:Hq.
  - exists 0, mq, q. rewrite Nat.add_0_r. auto.
  - destruct Hin as [-> | Hin]; [congruence | ].
    destruct (IH Hin (S k)) as (i & m' & p' & Hhit & Hnth & Hs).
    exists (S i), m', p'. rewrite Nat.add_succ_r. auto.
Qed.

Lemma prompt_map_login_error (s : Transport) (i : nat) (p : regex) :
  nth_error (get_login_error_prompt s) i = Some p ->
  nth_error (prompt_map s) i = Some (login_error_section, p).
Proof.
  intros H. unfold prompt_map, prompts. cbn [flat_map fst snd].
  rewrite nth_error_app1.
  - rewrite nth_error_map, H. reflexivity.
  - rewrite length_map. apply nth_error_Some. congruence.
Qed.

(** [_waitfor] on a buffer in which a pattern is found already. *)
Lemma _waitfor_immediate (prompt : prompt_arg) (s : Transport) i m :
  first_match (to_regexs prompt) (buffer s) = Some (i, m) ->
  _waitfor prompt s
  = (set_os_guesser (guesser_response_received (os_guesser s))
       (set_response (Some (take (m_end m) (buffer s))) s),
     Return (i, m)).
Proof.
  intros H. unfold _waitfor, _domatch, response_received, matched.
  plumbing. rewrite H. reflexivity.
Qed.

(** X8: a login error that is in the buffer wins the race over every
    other prompt that may be there as well: [_app_authenticate] fails
    with [LoginFailure] at once, with nothing taken from the buffer or
    from the device and nothing sent. *)
Theorem login_error_wins_the_race
  (user password : string) (s : Transport) (p : regex) (m : MatchObject) :
  In p (get_login_error_prompt s) ->
  re_search p (buffer s) = Some m ->
  exists s1,
    race user password s = (s1, Raise (LoginFailure "Login failed")) /\
    buffer s1 = buffer s /\ incoming s1 = incoming s /\ trace s1 = trace s /\
    forall fuel flush,
      _app_authenticate (S fuel) user password flush s
      = (s1, Raise (LoginFailure "Login failed")).
Proof.
  intros Hin Hp.
  assert (Hlist : prompt_list s
                  = (get_login_error_prompt s
                     ++ (get_username_prompt s ++ [_skey_re]
                         ++ get_password_prompt s ++ get_prompt s))%list).
  { unfold prompt_list, prompt_map, prompts. cbn [flat_map fst snd].
    rewrite !map_app, !map_map, app_nil_r. cbn [snd map].
    rewrite !map_id. reflexivity. }
  destruct (first_match_from_app _
              (get_username_prompt s ++ [_skey_re]
               ++ get_password_prompt s ++ get_prompt s)%list _ _ Hin Hp 0)
    as (i & m' & p' & Hhit & Hnth & _).
  rewrite <- Hlist in Hhit. cbn [Nat.add] in Hhit.
  pose proof (@_waitfor_immediate (Many (prompt_list s)) s i m' Hhit) as Hw.
  pose proof (race_after_wait user password _ Hw) as Hrace.
  cbv beta iota in Hrace. unfold dispatch in Hrace.
  rewrite (prompt_map_login_error _ _ Hnth) in Hrace.
  eexists. split; [exact Hrace | ].
  repeat (split; [reflexivity | ]).
  intros fuel flush. unfold _app_authenticate.
  cbn [_app_authenticate_loop].
  rewrite (@bind_raise _ _ _ _ _ _ _
             (@bind_raise _ _ _ _ _ _ _ Hrace)).
  reflexivity.
Qed.

(** X9: when the user name section or the password section wins the
    race, the prompt is consumed from the buffer through the end of the
    match, and then the user name, or the password, is sent followed by
    a carriage return; the loop goes round again. *)
Theorem credential_prompt_is_answered
  (user password : string) (s s1 : Transport) (index : nat) (m : MatchObject)
  (sec : section) (prompt : regex) :
  _waitfor (Many (prompt_list s)) s = (s1, Return (index, m)) ->
  nth_error (prompt_map s) index = Some (sec, prompt) ->
  sec = username_section \/ sec = password_section ->
  exists s2,
    race user password s = (s2, Return Continue) /\
    buffer s2 = drop (m_end m) (buffer s1) /\
    response s2 = Some (take (m_end m) (buffer s1)) /\
    incoming s2 = incoming s1 /\
    trace s2
    = (trace s1 ++
       [Send (match sec with
              | username_section => user
              | _ => password
              end ++ CR)])%list /\
    forall fuel,
      _app_authenticate_loop (S fuel) user password s
      = _app_authenticate_loop fuel user password s2.
Proof.
  intros Hrun Hp Hsec.
  destruct (race_wait_returns _ Hrun Hp) as (_ & _ & Hsearch & _ & _).
  pose proof (race_after_wait user password _ Hrun) as Hrace.
  cbv beta iota in Hrace. unfold dispatch in Hrace. rewrite Hp in Hrace.
  destruct Hsec as [-> | ->];
    (run_dbg_in Hrace err;
     run_step_in (@expect_immediate (One prompt) (set_stderr err s1) 0 m
                    (@first_match_single prompt _ _ Hsearch)) Hrace;
     run_step_in (send_eq _ _) Hrace;
     eexists; split; [exact Hrace | ];
     repeat (split; [reflexivity | ]);
     intros fuel; cbn [_app_authenticate_loop];
     run_step Hrace; reflexivity).
Qed.

(** *** Waiting twice *)

(** X10: [waitfor] leaves what it found where it is: once it has
    returned, the same call returns the same index and match again, at
    once, taking nothing from the device and changing neither the buffer
    nor the response; and [expect] with the same patterns takes that
    very match, at once: the response stays and the buffer goes on
    after the end of the match. *)
Theorem waitfor_can_be_repeated
  (prompt : prompt_arg) (s s' : Transport) (i : nat) (m : MatchObject) :
  waitfor prompt s = (s', Return (i, m)) ->
  (exists s'',
      waitfor prompt s' = (s'', Return (i, m)) /\
      buffer s'' = buffer s' /\ incoming s'' = incoming s' /\
      response s'' = response s' /\ trace s'' = trace s') /\
  (exists s'',
      expect prompt s' = (s'', Return (i, m)) /\
      buffer s'' = drop (m_end m) (buffer s') /\ incoming s'' = incoming s' /\
      response s'' = response s' /\ trace s'' = trace s').
Proof.
  intros Hrun.
  destruct (waitfor_spec _ _ Hrun) as (_ & used & _ & Hpost).
  cbn in Hpost. destruct Hpost as (Hhit & Hresp & Hbuf & _).
  rewrite <- Hbuf in Hhit, Hresp.
  split.
  - pose proof (@_waitfor_immediate prompt s' i m Hhit) as Hw.
    rewrite (set_response_same _ Hresp) in Hw.
    eexists. split.
    + unfold waitfor. cbn [retry]. unfold try_except. rewrite Hw. reflexivity.
    + cbn. auto.
  - pose proof (@expect_immediate prompt s' i m Hhit) as Hw.
    rewrite (set_response_same _ Hresp) in Hw.
    eexists. split; [exact Hw | ]. cbn. auto.
Qed.

(** X11: [expect] takes what it found out of the buffer and loses
    nothing: once it has returned, the response followed by what is
    left in the buffer is what was buffered before followed by the
    chunks taken from the device, in order, and the response ends where
    the match ends. *)
Theorem expect_loses_nothing
  (prompt : prompt_arg) (s s' : Transport) (i : nat) (m : MatchObject) :
  expect prompt s = (s', Return (i, m)) ->
  exists used text,
    incoming s = (used ++ incoming s')%list /\
    response s' = Some text /\
    text ++ buffer s' = buffer s ++ joined used /\
    text = take (m_end m) (buffer s ++ joined used) /\
    exists p, nth_error (to_regexs prompt) i = Some p /\
              re_search p (buffer s ++ joined used) = Some m.
Proof.
  intros Hrun.
  destruct (expect_spec _ _ Hrun) as (_ & used & Hused & Hpost).
  cbn in Hpost. destruct Hpost as (Hhit & Hresp & Hbuf & _).
  exists used, (take (m_end m) (buffer s ++ joined used)).
  split; [exact Hused | ]. split; [exact Hresp | ].
  split; [rewrite Hbuf; apply take_drop | ].
  split; [reflexivity | ].
  apply first_match_sound. exact Hhit.
Qed.

(** *** What a wait and a login leave alone *)

Section Frame.

Variable Q : Call -> Prop.

Lemma grown_refl (s : Transport) : grown Q s s.
Proof.
  constructor; [apply settings_kept_refl | | | reflexivity].
  - exists []. rewrite app_nil_r. auto.
  - exists []. reflexivity.
Qed.

Lemma grown_trans (s1 s2 s3 : Transport) :
  grown Q s1 s2 -> grown Q s2 s3 -> grown Q s1 s3.
Proof.
  intros [K1 (l1 & T1 & F1) (u1 & I1) E1] [K2 (l2 & T2 & F2) (u2 & I2) E2].
  constructor.
  - eapply settings_kept_trans; eassumption.
  - exists (l1 ++ l2)%list. rewrite T2, T1, app_assoc.
    split; [reflexivity | apply Forall_app; auto].
  - exists (u1 ++ u2)%list. rewrite I1, I2, app_assoc. reflexivity.
  - intros Hd. rewrite E2, E1; auto. destruct K1. congruence.
Qed.

(** A change to what [grown] does not look at. *)
Lemma grown_untracked (s s' : Transport) :
  settings_kept s s' -> trace s' = trace s -> incoming s' = incoming s ->
  stderr s' = stderr s -> grown Q s s'.
Proof.
  intros K T I E. constructor; auto.
  - exists []. rewrite app_nil_r. auto.
  - exists []. rewrite I. reflexivity.
Qed.

Lemma grown_call (s : Transport) (c : Call) :
  Q c -> grown Q s (set_trace (trace s ++ [c]) s).
Proof.
  intros Hc. constructor; [constructor; reflexivity | | | reflexivity].
  - exists [c]. auto.
  - exists []. reflexivity.
Qed.

Lemma keeps_ret {A} (a : A) : keeps Q (ret a).
Proof. intros s s' r H. inversion H. apply grown_refl. Qed.

Lemma keeps_raise {A} (e : exn) : keeps Q (@raise _ A e).
Proof. intros s s' r H. inversion H. apply grown_refl. Qed.

Lemma keeps_gets {A} (f : Transport -> A) : keeps Q (gets f).
Proof. intros s s' r H. inversion H. apply grown_refl. Qed.

Lemma keeps_modify (f : Transport -> Transport) :
  (forall s, grown Q s (f s)) -> keeps Q (modify f).
Proof. intros Hf s s' r H. inversion H. apply Hf. Qed.

Lemma keeps_bind {A B} (m : M A) (k : A -> M B) :
  keeps Q m -> (forall a, keeps Q (k a)) -> keeps Q (bind m k).
Proof.
  intros Hm Hk s s' r H. unfold bind in H.
  destruct (m s) as [s1 [a|e|]] eqn:Hrun.
  - eapply grown_trans; [eapply Hm | eapply Hk]; eassumption.
  - inversion H; subst. eapply Hm; eassumption.
  - inversion H; subst. eapply Hm; eassumption.
Qed.

Lemma keeps_try_except {A} (m : M A) (h : exn -> option (M A)) :
  keeps Q m -> (forall e k, h e = Some k -> keeps Q k) ->
  keeps Q (try_except m h).
Proof.
  intros Hm Hh s s' r H. unfold try_except in H.
  destruct (m s) as [s1 [a|e|]] eqn:Hrun.
  - inversion H; subst. eapply Hm; eassumption.
  - destruct (h e) as [k|] eqn:Hk.
    + eapply grown_trans; [eapply Hm | eapply (Hh _ _ Hk)]; eassumption.
    + inversion H; subst. eapply Hm; eassumption.
  - inversion H; subst. eapply Hm; eassumption.
Qed.

Lemma keeps_dbg (level : Z) (msg : string) :
  (1 <= level)%Z -> keeps Q (_dbg level msg).
Proof.
  intros Hlevel s s' r H.
  destruct (_dbg_cases level msg s) as (err & Hd & Herr).
  rewrite Hd in H. inversion H; subst.
  constructor; [constructor; reflexivity | | | ].
  - exists []. rewrite app_nil_r. auto.
  - exists []. reflexivity.
  - intros Hq. cbn. apply Herr. lia.
Qed.

Lemma keeps_send (data : string) : Q (Send data) -> keeps Q (send data).
Proof. intros Hc. apply keeps_modify. intros s. now apply grown_call. Qed.

Lemma keeps_otp_cb (seq : Z) (seed : string) :
  Q (OtpRequested seq seed) -> keeps Q (_otp_cb seq seed).
Proof. intros Hc. apply keeps_modify. intros s. now apply grown_call. Qed.

Lemma keeps_response_received : keeps Q response_received.
Proof.
  apply keeps_modify. intros s.
  apply grown_untracked; [constructor | | | ]; reflexivity.
Qed.

Lemma keeps_check_lines (lines : list string) : keeps Q (check_lines lines).
Proof.
  intros s s' r H. rewrite check_lines_returns in H. inversion H.
  apply grown_refl.
Qed.

Hypothesis Q_received : forall data, Q (DataReceived data).

Lemma _receive_cb_stderr (data : string) (s : Transport) :
  (debug s < 1)%Z -> stderr (fst (_receive_cb data s)) = stderr s.
Proof.
  intros Hq. apply Z.ltb_lt in Hq.
  unfold _receive_cb, driver_map_getitem, emit_data_received,
    _driver_replaced_notify, cancel_expect, guess_os, _dbg.
  plumbing. cbn.
  destruct (log s); cbn;
    repeat match goal with
           | |- context [(debug s <? 1)%Z] => rewrite Hq; cbn
           | |- context [driver_map ?k] => destruct (driver_map k); cbn
           | |- context [if ?b then _ else _] => destruct b; cbn
           end;
    reflexivity.
Qed.

Lemma keeps_receive_cb (data : string) : keeps Q (_receive_cb data).
Proof.
  intros s s' r H.
  pose proof (_receive_cb_stderr data s) as Herr. rewrite H in Herr.
  destruct (_receive_cb_spec data s) as (s2 & r2 & Hcb & K & _ & I & _ & Hc).
  rewrite H in Hcb. inversion Hcb; subst s2 r2. clear Hcb.
  constructor; [exact K | | exists []; rewrite I; reflexivity | exact Herr].
  destruct Hc as [(k & _ & T & _) | (_ & T & _)].
  - exists []. rewrite T, app_nil_r. auto.
  - eexists. split; [exact T | ]. auto.
Qed.

Lemma keeps_check_cancelled : keeps Q check_cancelled.
Proof.
  intros s s' r H.
  destruct (check_cancelled_cases s)
    as [(_ & Hc) | (_ & s1 & K & _ & I & T & _ & [Hc | Hc])];
    rewrite Hc in H; inversion H; subst; try apply grown_refl.
  - unfold check_cancelled in Hc.
    destruct (cancel_requested s); [ | discriminate].
    destruct (driver_replaced (set_cancel_requested false s));
      inversion Hc; subst;
      (apply grown_untracked; [constructor | | | ]; reflexivity).
  - unfold check_cancelled in Hc.
    destruct (cancel_requested s); [ | discriminate].
    destruct (driver_replaced (set_cancel_requested false s));
      inversion Hc; subst;
      (apply grown_untracked; [constructor | | | ]; reflexivity).
Qed.

Lemma keeps_matched (flush : bool) (i : nat) (m : MatchObject) :
  keeps Q (matched flush i m).
Proof.
  intros s s' r H. unfold matched in H. inversion H; subst.
  destruct flush; (apply grown_untracked; [constructor | | | ]; reflexivity).
Qed.

Lemma keeps_starved {A} : keeps Q (@starved _ A).
Proof.
  intros s s' r H. unfold starved in H.
  destruct (closed s); inversion H; subst; apply grown_refl.
Qed.

Lemma grown_feed (prompt : list regex) (flush : bool) (chunks : list string) :
  forall s s' r,
    incoming s = chunks -> feed prompt flush chunks s = (s', r) ->
    grown Q s s'.
Proof.
  induction chunks as [|data rest IH]; intros s s' r Hin Hrun.
  - cbn in Hrun. eapply keeps_starved; eassumption.
  - cbn [feed] in Hrun.
    set (s1 := set_incoming rest (set_buffer (buffer s ++ data) s)) in *.
    assert (G1 : grown Q s s1).
    { constructor; [constructor; reflexivity | | | reflexivity].
      - exists []. rewrite app_nil_r. auto.
      - exists [data]. rewrite Hin. reflexivity. }
    rewrite (@bind_eq _ _ _ _ _ _ _ (modify_eq _ s)) in Hrun. fold s1 in Hrun.
    destruct (_receive_cb data s1) as [s2 r2] eqn:Hcb.
    assert (G2 : grown Q s1 s2) by (eapply keeps_receive_cb; exact Hcb).
    destruct (_receive_cb_spec data s1) as (s2' & r2' & Hcb' & _ & _ & I2 & _).
    rewrite Hcb in Hcb'. inversion Hcb'; subst s2' r2'. clear Hcb'.
    destruct r2 as [d|e|].
    + rewrite (@bind_eq _ _ _ _ _ _ _ Hcb) in Hrun.
      rewrite (@bind_eq _ _ _ _ _ _ _ (gets_eq _ s2)) in Hrun.
      destruct (check_cancelled s2) as [s3 r3] eqn:Hchk.
      assert (G3 : grown Q s2 s3) by (eapply keeps_check_cancelled; exact Hchk).
      assert (G13 : grown Q s s3).
      { eapply grown_trans; [exact G1 | eapply grown_trans; eassumption]. }
      destruct r3 as [[]|e|].
      * rewrite (@bind_eq _ _ _ _ _ _ _ Hchk) in Hrun.
        assert (I3 : incoming s3 = rest).
        { destruct (check_cancelled_cases s2)
            as [(_ & Hc) | (_ & sx & _ & _ & I & _ & _ & [Hc | Hc])];
            rewrite Hchk in Hc; inversion Hc; subst; exact I2. }
        destruct (first_match prompt (buffer s2)) as [[i m]|].
        -- eapply grown_trans; [exact G13 | eapply keeps_matched; eassumption].
        -- eapply grown_trans; [exact G13 | eapply IH; eassumption].
      * rewrite (@bind_raise _ _ _ _ _ _ _ Hchk) in Hrun.
        inversion Hrun; subst. exact G13.
      * unfold bind in Hrun. rewrite Hchk in Hrun.
        inversion Hrun; subst. exact G13.
    + rewrite (@bind_raise _ _ _ _ _ _ _ Hcb) in Hrun.
      inversion Hrun; subst. eapply grown_trans; eassumption.
    + unfold bind in Hrun. rewrite Hcb in Hrun.
      inversion Hrun; subst. eapply grown_trans; eassumption.
Qed.

Lemma keeps_domatch (prompt : list regex) (flush : bool) :
  keeps Q (_domatch prompt flush).
Proof.
  intros s s' r H. unfold _domatch in H.
  destruct (first_match prompt (buffer s)) as [[i m]|].
  - eapply keeps_matched; eassumption.
  - eapply grown_feed; [reflexivity | eassumption].
Qed.

Lemma keeps_retry {A} (attempt : M A) (fuel : nat) :
  keeps Q attempt -> keeps Q (retry fuel attempt).
Proof.
  intros Hatt. induction fuel as [|fuel IH].
  - intros s s' r H. inversion H. apply grown_refl.
  - cbn [retry]. apply keeps_try_except; [exact Hatt | ].
    intros e k Hk. destruct e; inversion Hk; subst. exact IH.
Qed.

Lemma keeps_waitfor (prompt : prompt_arg) : keeps Q (waitfor prompt).
Proof.
  intros s s' r H. unfold waitfor in H. revert H.
  apply keeps_retry. unfold _waitfor.
  apply keeps_bind; [apply keeps_domatch | intros res].
  apply keeps_bind; [apply keeps_response_received | intros _].
  apply keeps_ret.
Qed.

Lemma keeps_expect (prompt : prompt_arg) : keeps Q (expect prompt).
Proof.
  intros s s' r H. unfold expect in H. revert H.
  apply keeps_retry. unfold _expect.
  apply keeps_bind; [apply keeps_domatch | intros res].
  apply keeps_bind; [apply keeps_response_received | intros _].
  apply keeps_ret.
Qed.

Lemma keeps_expect_prompt : keeps Q expect_prompt.
Proof.
  unfold expect_prompt.
  apply keeps_bind; [apply keeps_gets | intros p].
  apply keeps_bind; [apply keeps_expect | intros _].
  apply keeps_bind; [apply keeps_gets | intros resp].
  apply keeps_bind; [apply keeps_dbg; lia | intros _].
  destruct resp as [text|]; [ | apply keeps_raise].
  apply keeps_bind; [apply keeps_check_lines | intros _]. apply keeps_ret.
Qed.

End Frame.

(** Going through a method statement by statement. *)
Ltac keeps_step :=
  first [ apply keeps_ret | apply keeps_raise | apply keeps_gets
        | apply keeps_dbg; lia
        | apply keeps_expect; intros; exact I
        | apply keeps_expect_prompt; intros; exact I
        | apply keeps_send; cbn; eauto
        | apply keeps_otp_cb; exact I
        | apply keeps_bind; [ | intros ? ] ].

Lemma keeps_dispatch (user password : string) (pm : list (section * regex))
  (index : nat) (m : MatchObject) :
  keeps (credential_call user password) (dispatch user password pm index m).
Proof.
  unfold dispatch, py_group, py_int.
  destruct (nth_error pm index) as [[[] prompt]|]; repeat keeps_step.
  destruct (group m 1); repeat keeps_step.
  destruct (to_Z _); repeat keeps_step.
  destruct (group m 2); repeat keeps_step.
Qed.

Lemma keeps_race (user password : string) :
  keeps (credential_call user password) (race user password).
Proof.
  unfold race.
  apply keeps_bind; [apply keeps_gets | intros pm].
  apply keeps_bind; [apply keeps_gets | intros pl].
  apply keeps_bind.
  - apply keeps_try_except.
    + apply keeps_bind; [ | intros res; apply keeps_ret].
      unfold _waitfor.
      apply keeps_bind; [apply keeps_domatch; intros; exact I | intros res].
      apply keeps_bind; [apply keeps_response_received | intros _].
      apply keeps_ret.
    + intros e k Hk. destruct e; inversion Hk; subst; repeat keeps_step.
      apply keeps_modify. intros s.
      destruct (response s);
        [apply grown_refl
        | apply grown_untracked; [constructor | | | ]; reflexivity].
  - intros [[index m]|]; [apply keeps_dispatch | apply keeps_ret].
Qed.

Lemma keeps_app_authenticate (fuel : nat) (user password : string)
  (flush : bool) :
  keeps (credential_call user password)
    (_app_authenticate fuel user password flush).
Proof.
  unfold _app_authenticate. apply keeps_bind.
  - induction fuel as [|fuel IH].
    + intros s s' r H. inversion H. apply grown_refl.
    + cbn [_app_authenticate_loop].
      apply keeps_bind; [apply keeps_race | intros [|]];
        [exact IH | apply keeps_ret].
  - intros _. destruct flush; repeat keeps_step.
Qed.

Lemma keeps_execute (Q : Call -> Prop) (command : string) :
  (forall data, Q (DataReceived data)) -> Q (Send (command ++ CR)) ->
  keeps Q (execute command).
Proof.
  intros Hreceived Hsend. unfold execute.
  apply keeps_bind; [apply keeps_send; exact Hsend | intros _].
  apply keeps_expect_prompt. exact Hreceived.
Qed.

(** [app_authenticate] and [app_authorize] after the account is
    resolved: a line of debug output, the race, and the flag if the race
    returned. *)
Lemma app_login_shape (fuel : nat) (user password msg : string) (flush : bool)
  (flag : Transport -> Transport) (s0 : Transport) :
  exists s1 (r1 : outcome unit),
    grown (credential_call user password) s0 s1 /\
    (_dbg 1 msg ;;
     _app_authenticate fuel user password flush ;;
     modify flag) s0
    = match r1 with
      | Return _ => (flag s1, Return tt)
      | Raise e => (s1, Raise e)
      | OutOfFuel => (s1, OutOfFuel)
      end.
Proof.
  destruct (_dbg 1 msg s0) as [s0' r0] eqn:Hd.
  assert (G0 : grown (credential_call user password) s0 s0').
  { eapply keeps_dbg; [ | exact Hd]. lia. }
  destruct (_dbg_cases 1 msg s0) as (err & Hd' & _).
  rewrite Hd in Hd'. inversion Hd'; subst s0' r0. clear Hd'.
  rewrite (@bind_eq _ _ _ _ _ _ _ Hd).
  destruct (_app_authenticate fuel user password flush (set_stderr err s0))
    as [s1 r1] eqn:Hrun.
  assert (G1 : grown (credential_call user password) s0 s1).
  { eapply grown_trans; [exact G0 | ].
    eapply keeps_app_authenticate; exact Hrun. }
  exists s1, r1. split; [exact G1 | ].
  unfold bind. rewrite Hrun. destruct r1 as [[]|e|]; reflexivity.
Qed.

Lemma app_authenticate_shape (fuel : nat) (account : Account) (flush : bool)
  (s : Transport) :
  exists s1 (r1 : outcome unit),
    grown (credential_call (get_name account) (get_password account))
      (set_last_account (Some account) s) s1 /\
    app_authenticate fuel (Some account) flush s
    = match r1 with
      | Return _ => (set_app_authenticated true s1, Return tt)
      | Raise e => (s1, Raise e)
      | OutOfFuel => (s1, OutOfFuel)
      end.
Proof.
  unfold app_authenticate.
  rewrite (@bind_eq _ _ _ _ _ _ _
             (eq_refl : _get_account (Some account) s
                        = (set_last_account (Some account) s, Return account))).
  apply app_login_shape.
Qed.

Lemma app_authorize_shape (fuel : nat) (account : Account) (flush : bool)
  (s : Transport) :
  exists s1 (r1 : outcome unit),
    grown (credential_call (get_name account)
             match get_authorization_password account with
             | Some p => p
             | None => get_password account
             end)
      (set_last_account (Some account) s) s1 /\
    app_authorize fuel (Some account) flush s
    = match r1 with
      | Return _ => (set_app_authorized true s1, Return tt)
      | Raise e => (s1, Raise e)
      | OutOfFuel => (s1, OutOfFuel)
      end.
Proof.
  unfold app_authorize.
  rewrite (@bind_eq _ _ _ _ _ _ _
             (eq_refl : _get_account (Some account) s
                        = (set_last_account (Some account) s, Return account))).
  cbv zeta.
  replace (match get_authorization_password account with
           | Some p => p
           | None => get_password account
           end)
    with (match get_authorization_password account with
          | None => get_password account
          | Some p => p
          end) by (destruct (get_authorization_password account); reflexivity).
  apply app_login_shape.
Qed.

(** X12: waiting only listens.  Whatever [waitfor], [expect] and
    [expect_prompt] come to, the only calls they have made are calls to
    the listeners of [data_received_event]: nothing is sent to the
    device and no protocol hook is called. *)
Theorem waits_only_listen (prompt : prompt_arg) (s : Transport) :
  (exists l, trace (fst (waitfor prompt s)) = (trace s ++ l)%list /\
             Forall is_data_received l) /\
  (exists l, trace (fst (expect prompt s)) = (trace s ++ l)%list /\
             Forall is_data_received l) /\
  (exists l, trace (fst (expect_prompt s)) = (trace s ++ l)%list /\
             Forall is_data_received l).
Proof.
  assert (Hreceived : forall data, is_data_received (DataReceived data))
    by (intros; exact I).
  split; [ | split].
  - destruct (waitfor prompt s) as [s' r] eqn:Hrun.
    assert (G : grown is_data_received s s')
      by (eapply keeps_waitfor; [exact Hreceived | exact Hrun]).
    exact (grown_trace G).
  - destruct (expect prompt s) as [s' r] eqn:Hrun.
    assert (G : grown is_data_received s s')
      by (eapply keeps_expect; [exact Hreceived | exact Hrun]).
    exact (grown_trace G).
  - destruct (expect_prompt s) as [s' r] eqn:Hrun.
    assert (G : grown is_data_received s s')
      by (eapply keeps_expect_prompt; [exact Hreceived | exact Hrun]).
    exact (grown_trace G).
Qed.

(** X13: the application level logins send credentials only.  Whatever
    [app_authenticate] comes to, all it has sent is the name of the
    account, its password, or a one-time password made from that
    password, each followed by a carriage return; [app_authorize] does
    the same with the authorization password of the account in the
    place of the password, and with the password only when the account
    has no authorization password.  Neither calls a protocol hook. *)
Theorem application_login_sends_credentials_only
  (fuel : nat) (account : Account) (flush : bool) (s : Transport) :
  (exists l,
      trace (fst (app_authenticate fuel (Some account) flush s))
      = (trace s ++ l)%list /\
      Forall (credential_call (get_name account) (get_password account)) l) /\
  (exists l,
      trace (fst (app_authorize fuel (Some account) flush s))
      = (trace s ++ l)%list /\
      Forall (credential_call (get_name account)
                match get_authorization_password account with
                | Some p => p
                | None => get_password account
                end) l).
Proof.
  split.
  - destruct (app_authenticate_shape fuel account flush s)
      as (s1 & r1 & [_ (l & Htr & Hall) _ _] & ->).
    exists l. split; [ | exact Hall].
    destruct r1 as [[]|e|]; exact Htr.
  - destruct (app_authorize_shape fuel account flush s)
      as (s1 & r1 & [_ (l & Htr & Hall) _ _] & ->).
    exists l. split; [ | exact Hall].
    destruct r1 as [[]|e|]; exact Htr.
Qed.

(** X14: the flags of the session.  [app_authenticate] sets
    [app_authenticated] when it returns and leaves it as it was when it
    does not; it never touches [authenticated] or [app_authorized], and
    the account it was given is the remembered one afterwards, however
    it ends.  [app_authorize] does the same with [app_authorized]. *)
Theorem application_login_sets_its_flag_on_success
  (fuel : nat) (account : Account) (flush : bool) (s : Transport) :
  (let s' := fst (app_authenticate fuel (Some account) flush s) in
   let r := snd (app_authenticate fuel (Some account) flush s) in
   app_authenticated s' = (returns r || app_authenticated s)%bool /\
   authenticated s' = authenticated s /\
   app_authorized s' = app_authorized s /\
   last_account s' = Some account) /\
  (let s' := fst (app_authorize fuel (Some account) flush s) in
   let r := snd (app_authorize fuel (Some account) flush s) in
   app_authorized s' = (returns r || app_authorized s)%bool /\
   authenticated s' = authenticated s /\
   app_authenticated s' = app_authenticated s /\
   last_account s' = Some account).
Proof.
  cbv zeta. split.
  - destruct (app_authenticate_shape fuel account flush s)
      as (s1 & r1 & [[] _ _ _] & ->).
    destruct r1 as [[]|e|]; cbn in *; auto.
  - destruct (app_authorize_shape fuel account flush s)
      as (s1 & r1 & [[] _ _ _] & ->).
    destruct r1 as [[]|e|]; cbn in *; auto.
Qed.

Lemma settings_kept_overrides (s s' : Transport) :
  settings_kept s s' -> overrides_kept s s'.
Proof. intros []. repeat split; assumption. Qed.

(** Each of the waits, [execute] and the application level logins keeps
    the overrides and the debug level, and with a debug level below 1
    writes nothing to stderr. *)
Lemma operations_keep_overrides
  (fuel : nat) (prompt : prompt_arg) (command : string) (account : Account)
  (flush : bool) (s : Transport) :
  let kept s' :=
    overrides_kept s s' /\ ((debug s < 1)%Z -> stderr s' = stderr s) in
  kept (fst (waitfor prompt s)) /\
  kept (fst (expect prompt s)) /\
  kept (fst (expect_prompt s)) /\
  kept (fst (execute command s)) /\
  kept (fst (app_authenticate fuel (Some account) flush s)) /\
  kept (fst (app_authorize fuel (Some account) flush s)).
Proof.
  cbv zeta.
  assert (Htrue : forall c : Call, (fun _ => True) c) by (intros; exact I).
  assert (Hgrown : forall Q s0 s', grown Q s0 s' -> overrides_kept s0 s' /\
                                   ((debug s0 < 1)%Z -> stderr s' = stderr s0)).
  { intros Q s0 s' [K _ _ E].
    split; [now apply settings_kept_overrides | exact E]. }
  split; [ | split; [ | split; [ | split; [ | split]]]].
  - destruct (waitfor prompt s) as [s1 r] eqn:Hrun.
    apply (Hgrown (fun _ => True)). eapply keeps_waitfor; eauto.
  - destruct (expect prompt s) as [s1 r] eqn:Hrun.
    apply (Hgrown (fun _ => True)). eapply keeps_expect; eauto.
  - destruct (expect_prompt s) as [s1 r] eqn:Hrun.
    apply (Hgrown (fun _ => True)). eapply keeps_expect_prompt; eauto.
  - destruct (execute command s) as [s1 r] eqn:Hrun.
    apply (Hgrown (fun _ => True)). eapply keeps_execute; eauto.
  - destruct (app_authenticate_shape fuel account flush s)
      as (s1 & r1 & G & ->).
    destruct (Hgrown _ _ _ G) as (K & E).
    destruct r1 as [[]|e|]; split; first [exact K | exact E].
  - destruct (app_authorize_shape fuel account flush s)
      as (s1 & r1 & G & ->).
    destruct (Hgrown _ _ _ G) as (K & E).
    destruct r1 as [[]|e|]; split; first [exact K | exact E].
Qed.

(** X15: with a driver pinned, the prompts in force are the same after
    a wait, after [execute] and after an application level login as
    they were before, whatever the device has sent meanwhile and
    however the operation ended: the driver is the pinned one still and
    each of the five getters returns what it returned. *)
Theorem pinned_prompts_stay_in_force
  (fuel : nat) (prompt : prompt_arg) (command : string) (account : Account)
  (flush : bool) (d : Driver) (s : Transport) :
  manual_driver s = Some d ->
  same_prompts s (fst (waitfor prompt s)) /\
  same_prompts s (fst (expect prompt s)) /\
  same_prompts s (fst (expect_prompt s)) /\
  same_prompts s (fst (execute command s)) /\
  same_prompts s (fst (app_authenticate fuel (Some account) flush s)) /\
  same_prompts s (fst (app_authorize fuel (Some account) flush s)).
Proof.
  intros Hpin.
  assert (H : forall s', overrides_kept s s' -> same_prompts s s').
  { intros s' (Hu & Hp & Hc & He & Hl & Hd).
    unfold same_prompts, get_username_prompt, get_password_prompt, get_prompt,
      get_error_prompt, get_login_error_prompt, get_driver.
    rewrite Hu, Hp, Hc, He, Hl, Hd, Hpin. repeat split. }
  destruct (operations_keep_overrides fuel prompt command account flush s)
    as ((H1 & _) & (H2 & _) & (H3 & _) & (H4 & _) & (H5 & _) & (H6 & _)).
  repeat split; apply H; assumption.
Qed.

(** X16: with a debug level below 1, which is the default, the waits,
    [execute] and the application level logins write nothing to
    stderr. *)
Theorem nothing_is_written_to_stderr_below_debug_1
  (fuel : nat) (prompt : prompt_arg) (command : string) (account : Account)
  (flush : bool) (s : Transport) :
  (debug s < 1)%Z ->
  stderr (fst (waitfor prompt s)) = stderr s /\
  stderr (fst (expect prompt s)) = stderr s /\
  stderr (fst (expect_prompt s)) = stderr s /\
  stderr (fst (execute command s)) = stderr s /\
  stderr (fst (app_authenticate fuel (Some account) flush s)) = stderr s /\
  stderr (fst (app_authorize fuel (Some account) flush s)) = stderr s.
Proof.
  intros Hquiet.
  destruct (operations_keep_overrides fuel prompt command account flush s)
    as ((_ & H1) & (_ & H2) & (_ & H3) & (_ & H4) & (_ & H5) & (_ & H6)).
  auto 10.
Qed.

End Engine.

(** * The class at work on small devices *)

Import Demo.

(** A run is known by where it leaves the connection and what it comes
    to. *)
Lemma run_eq {A : Type} (x : Transport * outcome A) (r : outcome A) :
  snd x = r -> x = (fst x, r).
Proof. destruct x; cbn; intros ->; reflexivity. Qed.

(** C1 fails on the code: the second line of the response matches the
    error pattern of the driver, and [execute] returns all the same;
    the response is in the [response] attribute and no
    [InvalidCommandException] is raised. *)
Theorem C1_error_line_goes_unreported :
  snd (execute "show foo" complaining_device) = Return VNone /\
  response (fst (execute "show foo" complaining_device))
  = Some ("show foo" ++ LF ++ "% Invalid input" ++ LF ++ "router> ") /\
  get_error_prompt (fst (execute "show foo" complaining_device))
  = [re_compile "% Invalid"] /\
  re_match (re_compile "% Invalid") "% Invalid input" = Some (mkMatch 0 9 []).
Proof. vm_compute. repeat split. Qed.

(** C4 as stated fails: [execute] returns [None], not the text of the
    response. *)
Lemma C4_execute_does_not_return_the_response :
  exists v text,
    snd (execute "show foo" complaining_device) = Return v /\
    response (fst (execute "show foo" complaining_device)) = Some text /\
    v <> VStr text.
Proof.
  exists VNone, ("show foo" ++ LF ++ "% Invalid input" ++ LF ++ "router> ").
  split; [vm_compute; reflexivity | ].
  split; [vm_compute; reflexivity | discriminate].
Qed.

Lemma C4_execute_witness :
  exists used i m,
    incoming complaining_device
    = (used ++ incoming (fst (execute "show foo" complaining_device)))%list /\
    trace (fst (execute "show foo" complaining_device))
    = (trace complaining_device
       ++ Send ("show foo" ++ CR) :: received used)%list /\
    first_match (get_prompt complaining_device)
      (buffer complaining_device ++ joined used) = Some (i, m) /\
    response (fst (execute "show foo" complaining_device))
    = Some (take (m_end m) (buffer complaining_device ++ joined used)) /\
    buffer (fst (execute "show foo" complaining_device))
    = drop (m_end m) (buffer complaining_device ++ joined used).
Proof.
  destruct (@C4_execute_returns_None _ "show foo" complaining_device
              (fst (execute "show foo" complaining_device)) VNone)
    as (_ & used & i & m & H).
  - apply run_eq. vm_compute. reflexivity.
  - exists used, i, m. exact H.
Defined.

Lemma C5_skey_witness :
  let skey_challenge_seen :=
    fst (_waitfor (Many (prompt_list skey_device)) skey_device) in
  exists s2,
    _skey_re = _skey_re /\
    re_search _skey_re (buffer skey_challenge_seen) = Some skey_match /\
    buffer s2 = drop (m_end skey_match) (buffer skey_challenge_seen) /\
    incoming s2 = incoming skey_challenge_seen /\
    trace s2 = (trace skey_challenge_seen ++ [OtpRequested 99 "ab1234"])%list /\
    forall s3 r3,
      expect (Many (get_password_prompt s2)) s2 = (s3, r3) ->
      match r3 with
      | Return _ =>
          exists err,
            let s4 := set_stderr err
                        (set_trace
                           (trace s3 ++ [Send (otp "secret" "ab1234" 99 ++ CR)])
                           s3) in
            race "alice" "secret" skey_device = (s4, Return Continue) /\
            forall fuel,
              _app_authenticate_loop (S fuel) "alice" "secret" skey_device
              = _app_authenticate_loop fuel "alice" "secret" s4
      | Raise e => race "alice" "secret" skey_device = (s3, Raise e)
      | OutOfFuel => False
      end.
Proof.
  apply (@C5_skey_challenge_is_answered _ "alice" "secret" skey_device
           (fst (_waitfor (Many (prompt_list skey_device)) skey_device))
           2 skey_match _skey_re "99" "ab1234" 99).
  - apply run_eq. vm_compute. reflexivity.
  - reflexivity.
  - reflexivity.
  - reflexivity.
  - reflexivity.
Defined.

(** The whole exchange with that device: challenge announced, password
    prompt awaited, one-time password sent, shell prompt left alone. *)
Example skey_login_run :
  snd (_app_authenticate 4 "alice" "secret" false skey_device) = Return tt /\
  trace (fst (_app_authenticate 4 "alice" "secret" false skey_device))
  = [DataReceived ("otp-md4 99 ab1234 ext" ++ LF);
     OtpRequested 99 "ab1234";
     DataReceived "Password:";
     Send ("otp(secret,ab1234,99)" ++ CR);
     DataReceived "router> "] /\
  buffer (fst (_app_authenticate 4 "alice" "secret" false skey_device))
  = "router> ".
Proof. vm_compute. repeat split. Qed.

Lemma C7_shell_prompt_witness :
  exists index m p,
    let s' := fst (_app_authenticate 4 "alice" "secret" false plain_device) in
    first_match (prompt_list s') (buffer s') = Some (index, m) /\
    nth_error (prompt_map s') index = Some (cli_section, p) /\
    In p (get_prompt s') /\
    re_search p (buffer s') = Some m.
Proof.
  apply (proj1 (@C7_shell_prompt_stays_unless_flushed _ 4 "alice" "secret"
                  plain_device)).
  apply run_eq. vm_compute. reflexivity.
Defined.

Example plain_login_run :
  buffer (fst (_app_authenticate 4 "alice" "secret" false plain_device))
  = "router> " /\
  buffer (fst (_app_authenticate 4 "alice" "secret" true plain_device)) = "" /\
  trace (fst (_app_authenticate 4 "alice" "secret" true plain_device))
  = [DataReceived "Username:"; Send ("alice" ++ CR);
     DataReceived "Password:"; Send ("secret" ++ CR);
     DataReceived "router> "].
Proof. vm_compute. repeat split. Qed.



(** A timeout of the wait for the password prompt that follows a
    one-time password challenge reaches the caller as the engine raised
    it. *)
Example skey_password_timeout :
  snd (_app_authenticate 2 "alice" "secret" true
         (connection ["otp-md4 99 ab1234 ext" ++ LF]))
  = Raise (TimeoutException (" ext" ++ LF)) /\
  buffer (fst (_app_authenticate 2 "alice" "secret" true
                 (connection ["otp-md4 99 ab1234 ext" ++ LF])))
  = " ext" ++ LF.
Proof. vm_compute. repeat split. Qed.

Lemma C10_pinned_driver_witness :
  let s' := fst (_receive_cb "Cisco IOS" pinned) in
  let r := snd (_receive_cb "Cisco IOS" pinned) in
  get_driver pinned = generic /\ get_driver s' = generic /\
  driver_replaced s' = driver_replaced pinned /\
  stderr s' = stderr pinned /\
  cancel_requested s' =
    (cancel_requested pinned
     || (returns r && data_received_event pinned (remove_cr_nul "Cisco IOS")))%bool.
Proof.
  apply (@C10_pinned_driver_is_never_replaced _ "Cisco IOS" pinned generic).
  reflexivity.
Defined.

(** Without the pin the same chunk replaces the driver and asks for the
    wait to be cancelled. *)
Example unpinned_driver_is_replaced :
  let s' := fst (_receive_cb "Cisco IOS" (connection [])) in
  auto_driver s' = ios /\ driver_replaced s' = true /\
  cancel_requested s' = true.
Proof. vm_compute. repeat split. Qed.

(** C3 as stated fails for [expect]: the wait is made again with the
    patterns it was given, not with patterns resolved anew.  Called with
    the prompt of the driver in use, on a device whose banner replaces
    the driver, [expect] goes on waiting for the prompt of the driver
    that was replaced, and times out with the prompt of the new driver
    in the buffer. *)
Lemma C3_expect_keeps_the_patterns_it_was_given :
  let s' := fst (expect (Many (get_prompt talkative_device)) talkative_device) in
  get_prompt talkative_device = [re_compile "> "] /\
  snd (_expect (Many (get_prompt talkative_device)) talkative_device)
  = Raise DriverReplacedException /\
  snd (expect (Many (get_prompt talkative_device)) talkative_device)
  = Raise (TimeoutException "Cisco IOSrouter#") /\
  buffer s' = "Cisco IOSrouter#" /\
  get_prompt s' = [re_compile "#"] /\
  first_match (get_prompt s') (buffer s') = Some (0, mkMatch 15 16 []).
Proof. vm_compute. repeat split. Qed.

Lemma C3_driver_replaced_witness :
  exists s0,
    Retried (_waitfor (One (re_compile "#"))) talkative_device s0 /\
    waitfor (One (re_compile "#")) talkative_device
    = _waitfor (One (re_compile "#")) s0 /\
    is_driver_replaced (snd (waitfor (One (re_compile "#")) talkative_device))
    = false /\
    is_out_of_fuel (snd (waitfor (One (re_compile "#")) talkative_device))
    = false /\
    forall s' i m,
      waitfor (One (re_compile "#")) talkative_device = (s', Return (i, m)) ->
      exists used p,
        incoming talkative_device = (used ++ incoming s')%list /\
        nth_error [re_compile "#"] i = Some p /\
        re_search p (buffer talkative_device ++ joined used) = Some m.
Proof.
  exact (proj1 (@C3_driver_replaced_is_absorbed _ (One (re_compile "#"))
                  talkative_device)).
Defined.

Example driver_replaced_during_waitfor :
  snd (_waitfor (One (re_compile "#")) talkative_device)
  = Raise DriverReplacedException /\
  snd (waitfor (One (re_compile "#")) talkative_device)
  = Return (0, mkMatch 15 16 []) /\
  buffer (fst (waitfor (One (re_compile "#")) talkative_device))
  = "Cisco IOSrouter#".
Proof. vm_compute. repeat split. Qed.

(** [login] on a device that changes the guess to [ios] on the way: the
    race starts again with the prompts of the new driver, and the
    driver's own procedure sends [enable]. *)
Example login_run :
  snd (login 8 (Some alice) None true ios_device) = Return tt /\
  trace (fst (login 8 (Some alice) None true ios_device))
  = [ProtocolAuthenticate "alice" "secret";
     DataReceived ("Cisco IOS" ++ LF ++ "Username:");
     Send ("alice" ++ CR);
     DataReceived "Password:";
     Send ("secret" ++ CR);
     DataReceived "router#";
     AutoAuthorize "ios" alice true;
     Send ("enable" ++ CR)] /\
  authenticated (fst (login 8 (Some alice) None true ios_device)) = true /\
  app_authenticated (fst (login 8 (Some alice) None true ios_device)) = true /\
  app_authorized (fst (login 8 (Some alice) None true ios_device)) = true.
Proof. vm_compute. repeat split. Qed.

Lemma C2_login_witness :
  exists s1 s2 s3,
    authenticate (Some alice) false (set_last_account (Some alice) ios_device)
    = (s1, Return tt) /\
    trace s1
    = (trace ios_device ++
       [match get_key alice with
        | None => ProtocolAuthenticate (get_name alice) (get_password alice)
        | Some key => ProtocolAuthenticateByKey (get_name alice) key
        end])%list /\
    authenticated s1 = true /\
    app_authenticate 8 (Some alice) false s1 = (s2, Return tt) /\
    app_authenticated s2 = true /\
    (exists index m p,
        first_match (prompt_list s2) (buffer s2) = Some (index, m) /\
        nth_error (prompt_map s2) index = Some (cli_section, p)) /\
    trace s3
    = (trace s2 ++ [AutoAuthorize (name (get_driver s2)) alice true])%list /\
    buffer s3 = buffer s2 /\
    auto_authorize (get_driver s2) alice true s3
    = (fst (login 8 (Some alice) None true ios_device), Return tt).
Proof.
  apply (proj2 (@C2_login_is_the_fixed_pipeline _ _ 8 (Some alice) None true
                  ios_device) alice
           (fst (login 8 (Some alice) None true ios_device))).
  apply run_eq. vm_compute. reflexivity.
Defined.

(** ** More about the class, on the same devices *)

Lemma remembered_account_witness :
  authenticate None true remembering
  = authenticate (Some alice) true remembering /\
  app_authenticate 4 None true remembering
  = app_authenticate 4 (Some alice) true remembering /\
  app_authorize 4 None true remembering
  = app_authorize 4 (Some alice) true remembering /\
  auto_app_authorize None true remembering
  = auto_app_authorize (Some alice) true remembering /\
  login 4 None (Some bob) true remembering
  = login 4 (Some alice) (Some bob) true remembering.
Proof.
  apply (@remembered_account_is_the_default _ _ 4 alice (Some bob) true
           remembering).
  reflexivity.
Defined.

Lemma missing_account_witness :
  authenticate None true plain_device
  = (plain_device, Raise (TypeError "An account is required")) /\
  app_authenticate 4 None true plain_device
  = (plain_device, Raise (TypeError "An account is required")) /\
  app_authorize 4 None true plain_device
  = (plain_device, Raise (TypeError "An account is required")) /\
  auto_app_authorize None true plain_device
  = (plain_device, Raise (TypeError "An account is required")) /\
  login 4 None None true plain_device
  = (plain_device, Raise (TypeError "An account is required")).
Proof.
  apply (@missing_account_is_a_TypeError _ _ 4 None true plain_device).
  reflexivity.
Defined.

Lemma guessed_driver_witness :
  let s' := fst (_receive_cb "Cisco IOS" talkative_device) in
  snd (_receive_cb "Cisco IOS" talkative_device)
  = Return (remove_cr_nul "Cisco IOS") /\
  get_driver s' = ios /\
  driver_replaced s'
  = (driver_replaced talkative_device
     || driver_neq (auto_driver talkative_device) ios)%bool /\
  cancel_requested s'
  = (cancel_requested talkative_device
     || driver_neq (auto_driver talkative_device) ios
     || data_received_event talkative_device (remove_cr_nul "Cisco IOS"))%bool /\
  trace s'
  = (trace talkative_device ++ [DataReceived (remove_cr_nul "Cisco IOS")])%list.
Proof.
  apply (@guessed_driver_is_replaced _ "Cisco IOS" talkative_device ios).
  - reflexivity.
  - reflexivity.
Defined.

Lemma unknown_guess_witness :
  let s' := fst (_receive_cb "Welcome to VMS" strange_guess) in
  snd (_receive_cb "Welcome to VMS" strange_guess) = Raise (KeyError "vms") /\
  os_guesser s'
  = guesser_data_received (os_guesser strange_guess)
      (remove_cr_nul "Welcome to VMS") /\
  auto_driver s' = auto_driver strange_guess /\
  driver_replaced s' = driver_replaced strange_guess /\
  cancel_requested s' = cancel_requested strange_guess /\
  trace s' = trace strange_guess.
Proof.
  apply (@unknown_guess_is_a_KeyError _ "Welcome to VMS" strange_guess).
  reflexivity.
Defined.

Lemma prompt_override_witness :
  get_prompt (fst (set_prompt (Some (One (re_compile "$ "))) plain_device))
  = [re_compile "$ "] /\
  get_prompt (fst (set_prompt None plain_device)) = [re_compile "> "] /\
  get_error_prompt (fst (set_prompt (Some (One (re_compile "$ "))) plain_device))
  = [re_compile "% Invalid"].
Proof.
  destruct (@prompt_override_round_trip _ (One (re_compile "$ ")) plain_device)
    as ((_ & _ & Hset & _) & (_ & _ & Hreset & _) & _ & _ & (_ & _ & Hother & _)
        & _).
  - discriminate.
  - split; [exact Hset | ]. split; [exact Hreset | exact Hother].
Defined.

Lemma login_error_witness :
  let s := fst (waitfor (One (re_compile "sername:")) rejecting_device) in
  exists s1,
    race "alice" "secret" s = (s1, Raise (LoginFailure "Login failed")) /\
    buffer s1 = buffer s /\ incoming s1 = incoming s /\ trace s1 = trace s /\
    forall fuel flush,
      _app_authenticate (S fuel) "alice" "secret" flush s
      = (s1, Raise (LoginFailure "Login failed")).
Proof.
  apply (@login_error_wins_the_race _ "alice" "secret"
           (fst (waitfor (One (re_compile "sername:")) rejecting_device))
           (re_compile "Login incorrect") (mkMatch 0 15 [])).
  - vm_compute. left. reflexivity.
  - vm_compute. reflexivity.
Defined.

Lemma credential_prompt_witness :
  let s1 := fst (_waitfor (Many (prompt_list plain_device)) plain_device) in
  exists s2,
    race "alice" "secret" plain_device = (s2, Return Continue) /\
    buffer s2 = drop 9 (buffer s1) /\
    response s2 = Some (take 9 (buffer s1)) /\
    incoming s2 = incoming s1 /\
    trace s2 = (trace s1 ++ [Send ("alice" ++ CR)])%list /\
    forall fuel,
      _app_authenticate_loop (S fuel) "alice" "secret" plain_device
      = _app_authenticate_loop fuel "alice" "secret" s2.
Proof.
  apply (@credential_prompt_is_answered _ "alice" "secret" plain_device
           (fst (_waitfor (Many (prompt_list plain_device)) plain_device))
           1 (mkMatch 1 9 []) username_section (re_compile "sername:")).
  - apply run_eq. vm_compute. reflexivity.
  - reflexivity.
  - left. reflexivity.
Defined.

Lemma waitfor_twice_witness :
  let s' := fst (waitfor (One (re_compile "#")) talkative_device) in
  (exists s'',
      waitfor (One (re_compile "#")) s' = (s'', Return (0, mkMatch 15 16 [])) /\
      buffer s'' = buffer s' /\ incoming s'' = incoming s' /\
      response s'' = response s' /\ trace s'' = trace s') /\
  (exists s'',
      expect (One (re_compile "#")) s' = (s'', Return (0, mkMatch 15 16 [])) /\
      buffer s'' = drop 16 (buffer s') /\ incoming s'' = incoming s' /\
      response s'' = response s' /\ trace s'' = trace s').
Proof.
  apply (@waitfor_can_be_repeated _ (One (re_compile "#")) talkative_device
           (fst (waitfor (One (re_compile "#")) talkative_device))
           0 (mkMatch 15 16 [])).
  apply run_eq. vm_compute. reflexivity.
Defined.

Lemma expect_loses_nothing_witness :
  let s' := fst (expect (One (re_compile "> ")) complaining_device) in
  exists used text,
    incoming complaining_device = (used ++ incoming s')%list /\
    response s' = Some text /\
    text ++ buffer s' = buffer complaining_device ++ joined used /\
    text = take 33 (buffer complaining_device ++ joined used) /\
    exists p, nth_error [re_compile "> "] 0 = Some p /\
              re_search p (buffer complaining_device ++ joined used)
              = Some (mkMatch 31 33 []).
Proof.
  apply (@expect_loses_nothing _ (One (re_compile "> ")) complaining_device
           (fst (expect (One (re_compile "> ")) complaining_device))
           0 (mkMatch 31 33 [])).
  apply run_eq. vm_compute. reflexivity.
Defined.

Lemma pinned_prompts_witness :
  same_prompts pinned_talkative
    (fst (waitfor (One (re_compile "#")) pinned_talkative)) /\
  same_prompts pinned_talkative
    (fst (expect (One (re_compile "#")) pinned_talkative)) /\
  same_prompts pinned_talkative (fst (expect_prompt pinned_talkative)) /\
  same_prompts pinned_talkative (fst (execute "show version" pinned_talkative)) /\
  same_prompts pinned_talkative
    (fst (app_authenticate 4 (Some alice) true pinned_talkative)) /\
  same_prompts pinned_talkative
    (fst (app_authorize 4 (Some bob) true pinned_talkative)).
Proof.
  destruct (@pinned_prompts_stay_in_force _ 4 (One (re_compile "#"))
              "show version" alice true generic pinned_talkative)
    as (H1 & H2 & H3 & H4 & H5 & _); [reflexivity | ].
  destruct (@pinned_prompts_stay_in_force _ 4 (One (re_compile "#"))
              "show version" bob true generic pinned_talkative)
    as (_ & _ & _ & _ & _ & H6); [reflexivity | ].
  auto 10.
Defined.

Lemma quiet_stderr_witness :
  stderr (fst (waitfor (One (re_compile "#")) talkative_device))
  = stderr talkative_device /\
  stderr (fst (expect (One (re_compile "#")) talkative_device))
  = stderr talkative_device /\
  stderr (fst (expect_prompt talkative_device)) = stderr talkative_device /\
  stderr (fst (execute "show version" talkative_device))
  = stderr talkative_device /\
  stderr (fst (app_authenticate 4 (Some alice) true talkative_device))
  = stderr talkative_device /\
  stderr (fst (app_authorize 4 (Some alice) true talkative_device))
  = stderr talkative_device.
Proof.
  apply (@nothing_is_written_to_stderr_below_debug_1 _ 4 (One (re_compile "#"))
           "show version" alice true talkative_device).
  reflexivity.
Defined.
